(** * EAT framework: catalog trust pipeline, catalog model and MCP invocation

    A shallow embedding of [src/eat/security.py], [src/eat/discovery.py] and
    [src/eat/mcp_client.py], and the properties of the design document that
    can be stated over it.

    Conventions.
    - A Python [str] is a Rocq [string] read as its UTF-8 byte sequence, so
      [s.encode()] is the list of the bytes of [s].
    - Parsed JSON and every other Python value the code handles lives in the
      type [value]; JSON numbers are restricted to integers.
    - The network, [json], [jwt], [cryptography] and [urllib] are external
      collaborators, collected in the record [Env]; [urlparse] and [urljoin]
      may raise, as they do on an address such as [http://[].
    - [str.lower] rests on the interpreter's Unicode tables, the class
      [Unicode].
    - An f-string is kept symbolic ([message]): the literal pieces and the
      values spliced in between are recorded, not rendered. *)

From Stdlib Require Import ZArith Ascii String.
From Stdlib.Strings Require Import Byte.
From stdpp Require Import base option list strings gmap.

Set Warnings "-register-all".

(** ** SHA-256 (FIPS 180-4), the function behind [hashlib.sha256] *)

Module Sha256.
Local Open Scope Z_scope.

Definition mask32 : Z := 0xFFFFFFFF.

Definition w32 (x : Z) : Z := Z.land x mask32.

Definition add32 (x y : Z) : Z := w32 (x + y).

Definition not32 (x : Z) : Z := Z.lxor x mask32.

Definition rotr (n x : Z) : Z :=
  Z.lor (Z.shiftr x n) (w32 (Z.shiftl x (32 - n))).

Definition shr (n x : Z) : Z := Z.shiftr x n.

Definition Ch (x y z : Z) : Z :=
  Z.lxor (Z.land x y) (Z.land (not32 x) z).

Definition Maj (x y z : Z) : Z :=
  Z.lxor (Z.lxor (Z.land x y) (Z.land x z)) (Z.land y z).

Definition Sigma0 (x : Z) : Z :=
  Z.lxor (Z.lxor (rotr 2 x) (rotr 13 x)) (rotr 22 x).

Definition Sigma1 (x : Z) : Z :=
  Z.lxor (Z.lxor (rotr 6 x) (rotr 11 x)) (rotr 25 x).

Definition sigma0 (x : Z) : Z :=
  Z.lxor (Z.lxor (rotr 7 x) (rotr 18 x)) (shr 3 x).

Definition sigma1 (x : Z) : Z :=
  Z.lxor (Z.lxor (rotr 17 x) (rotr 19 x)) (shr 10 x).

(** The constants of the standard are defined, not tabulated: the round
    constants are the first 32 bits of the fractional parts of the cube
    roots of the first 64 primes, the initial hash value those of the square
    roots of the first 8 primes. *)

Definition is_prime (n : Z) : bool :=
  (1 <? n) &&
  forallb (fun d => negb (n mod d =? 0))
          (map Z.of_nat (seq 2 (Z.to_nat n - 2))).

Definition primes : list Z :=
  Eval cbv in List.filter is_prime (map Z.of_nat (seq 2 310)).

(** The largest [r' >= r], built from the [k] low bits, with
    [r' ^ degree <= n]: the integer root of [n]. *)
Fixpoint root_bits (k : nat) (degree n r : Z) : Z :=
  match k with
  | O => r
  | S k' =>
      let c := r + 2 ^ Z.of_nat k' in
      root_bits k' degree n (if c ^ degree <=? n then c else r)
  end.

(** The first 32 bits of the fractional part of the [degree]-th root of
    [p]. *)
Definition frac_root (degree p : Z) : Z :=
  w32 (root_bits 40 degree (p * 2 ^ (32 * degree)) 0).

Definition K : list Z := Eval cbv in map (frac_root 3) primes.

(** Big-endian serialisation of the bit length on 8 bytes. *)
Definition be64 (n : Z) : list Z :=
  map (fun i => Z.land (Z.shiftr n (8 * i)) 0xFF) [7; 6; 5; 4; 3; 2; 1; 0].

Definition byte_val (b : byte) : Z := Z.of_N (Byte.to_N b).

(** Padding: the message, one [0x80] byte, zero bytes up to 56 modulo 64,
    then the bit length. *)
Definition pad (msg : list byte) : list Z :=
  let n := Z.of_nat (length msg) in
  map byte_val msg ++ [0x80] ++ repeat 0 (Z.to_nat ((55 - n) mod 64))
    ++ be64 (8 * n).

Fixpoint words (bs : list Z) : list Z :=
  match bs with
  | b0 :: b1 :: b2 :: b3 :: rest =>
      Z.lor (Z.lor (Z.shiftl b0 24) (Z.shiftl b1 16))
            (Z.lor (Z.shiftl b2 8) b3) :: words rest
  | _ => []
  end.

Fixpoint blocks (n : nat) (ws : list Z) : list (list Z) :=
  match n with
  | O => []
  | S n' => firstn 16 ws :: blocks n' (skipn 16 ws)
  end.

(** Message schedule: [w] holds the words computed so far. *)
Fixpoint schedule (n : nat) (w : list Z) : list Z :=
  match n with
  | O => w
  | S n' =>
      let t := length w in
      let at_ (i : nat) := nth (t - i) w 0 in
      schedule n'
        (w ++ [add32 (add32 (sigma1 (at_ 2%nat)) (at_ 7%nat))
                     (add32 (sigma0 (at_ 15%nat)) (at_ 16%nat))])
  end.

Record regs : Type := Regs {
  ra : Z; rb : Z; rc : Z; rd : Z; re : Z; rf : Z; rg : Z; rh : Z
}.

Definition round (s : regs) (kw : Z * Z) : regs :=
  let t1 := w32 (rh s + Sigma1 (re s) + Ch (re s) (rf s) (rg s)
                 + fst kw + snd kw) in
  let t2 := w32 (Sigma0 (ra s) + Maj (ra s) (rb s) (rc s)) in
  Regs (add32 t1 t2) (ra s) (rb s) (rc s) (add32 (rd s) t1)
       (re s) (rf s) (rg s).

Definition compress (h : regs) (block : list Z) : regs :=
  let w := schedule 48 block in
  let s := fold_left round (combine K w) h in
  Regs (add32 (ra h) (ra s)) (add32 (rb h) (rb s))
       (add32 (rc h) (rc s)) (add32 (rd h) (rd s))
       (add32 (re h) (re s)) (add32 (rf h) (rf s))
       (add32 (rg h) (rg s)) (add32 (rh h) (rh s)).

Definition init : regs :=
  Eval cbv in
    match map (frac_root 2) (firstn 8 primes) with
    | [a; b; c; d; e; f; g; h] => Regs a b c d e f g h
    | _ => Regs 0 0 0 0 0 0 0 0
    end.

Definition digest_words (msg : list byte) : list Z :=
  let ws := words (pad msg) in
  let s := fold_left compress (blocks (length ws / 16) ws) init in
  [ra s; rb s; rc s; rd s; re s; rf s; rg s; rh s].

Definition hex_digit (n : Z) : ascii :=
  if n <? 10 then ascii_of_N (Z.to_N (48 + n))
  else ascii_of_N (Z.to_N (87 + n)).

(** The eight lower-case hexadecimal digits of a 32-bit word. *)
Definition hex_word (w : Z) : list ascii :=
  map (fun i => hex_digit (Z.land (Z.shiftr w (4 * i)) 0xF))
      [7; 6; 5; 4; 3; 2; 1; 0].

(** [hashlib.sha256(msg).hexdigest()] *)
Definition hexdigest (msg : list byte) : string :=
  string_of_list_ascii (concat (map hex_word (digest_words msg))).

End Sha256.

#[global] Arguments Sha256.hexdigest : simpl never.


(** ** Python values, exceptions and the effect monad *)

Module Py.

(** Values as [json.loads] produces them (and [None], [True], ... passed by
    callers).  A dict is an association list in insertion order; lookups
    take the first entry of a key. *)
Inductive value : Type :=
  | VNone
  | VBool (b : bool)
  | VInt (n : Z)
  | VStr (s : string)
  | VList (items : list value)
  | VDict (entries : list (string * value)).

(** [bool(v)] *)
Definition truthy (v : value) : bool :=
  match v with
  | VNone => false
  | VBool b => b
  | VInt n => negb (n =? 0)%Z
  | VStr s => negb (String.eqb s "")
  | VList items => match items with [] => false | _ => true end
  | VDict entries => match entries with [] => false | _ => true end
  end.

(** Pieces of an f-string: literal text, [str(v)] of a spliced value, or a
    text chosen by the interpreter or a library (only its origin is kept). *)
Inductive frag : Type :=
  | Lit (s : string)
  | Fmt (v : value)
  | Interp (origin : string).

Definition message : Type := list frag.

Inductive exn_class : Type :=
  | RuntimeError
  | ValueError
  | AttributeError
  | TypeError
  | KeyError
  | JSONDecodeError
  | ClientError          (* aiohttp.ClientError and its subclasses *)
  | InvalidTokenError    (* jwt.InvalidTokenError and its subclasses *)
  | SecurityError        (* eat.security.SecurityError *)
  | MCPError             (* eat.mcp_client.MCPError *)
  | OtherException.      (* any other subclass of Exception *)

(** An exception object: its class and [str(e)]. *)
Record exn : Type := Exn { cls : exn_class; msg : message }.

Inductive outcome (A : Type) : Type :=
  | Ret (a : A)
  | Raise (e : exn).
Arguments Ret {A} a.
Arguments Raise {A} e.

Definition is_ret {A} (o : outcome A) : bool :=
  match o with Ret _ => true | Raise _ => false end.

Definition raises {A} (o : outcome A) (c : exn_class) : Prop :=
  exists m, o = Raise (Exn c m).

(** *** String methods *)

(** [s.endswith(suffix)] *)
Definition endswith (s suffix : string) : bool :=
  let n := String.length s in
  let m := String.length suffix in
  (m <=? n)%nat && String.eqb (String.substring (n - m) m s) suffix.

(** [needle in hay] on two strings *)
Fixpoint contains (needle hay : string) : bool :=
  String.prefix needle hay ||
  match hay with
  | EmptyString => false
  | String _ rest => contains needle rest
  end.

(** [s.lower()].  Python lowers a text by the case mappings of the Unicode
    database built into the interpreter; the database is a collaborator of
    the code and is left open here, so that what is proved holds for every
    case mapping. *)
Class Unicode : Type := lower : string -> string.

Fixpoint rstrip_rev (c : ascii) (r : list ascii) : list ascii :=
  match r with
  | x :: r' => if Ascii.eqb x c then rstrip_rev c r' else r
  | [] => []
  end.

(** [s.rstrip(c)] for a single character [c] *)
Definition rstrip (c : ascii) (s : string) : string :=
  string_of_list_ascii (rev (rstrip_rev c (rev (list_ascii_of_string s)))).

(** [s.encode()] *)
Definition encode (s : string) : list byte := list_byte_of_string s.

(** *** Dict and container operations *)

Fixpoint assoc {A} (k : string) (d : list (string * A)) : option A :=
  match d with
  | [] => None
  | (k', v) :: rest => if String.eqb k' k then Some v else assoc k rest
  end.

(** [d[k] = v]: replace in place, or append a new key at the end. *)
Fixpoint assoc_set {A} (k : string) (v : A) (d : list (string * A))
  : list (string * A) :=
  match d with
  | [] => [(k, v)]
  | (k', v') :: rest =>
      if String.eqb k' k then (k', v) :: rest
      else (k', v') :: assoc_set k v rest
  end.

Definition no_attribute (name : string) : exn :=
  Exn AttributeError [Interp "object has no attribute"; Lit name].

Definition not_iterable : exn :=
  Exn TypeError [Interp "object is not iterable"].

(** [v.get(k, default)] *)
Definition get (v : value) (k : string) (default : value) : outcome value :=
  match v with
  | VDict d => Ret (match assoc k d with Some x => x | None => default end)
  | _ => Raise (no_attribute "get")
  end.

(** [v[k]] for a string key [k] *)
Definition getitem (v : value) (k : string) : outcome value :=
  match v with
  | VDict d =>
      match assoc k d with
      | Some x => Ret x
      | None => Raise (Exn KeyError [Lit k])
      end
  | VStr _ | VList _ =>
      Raise (Exn TypeError [Interp "indices must be integers"])
  | _ => Raise (Exn TypeError [Interp "object is not subscriptable"])
  end.

(** [x == s] for a string [s] *)
Definition eq_str (x : value) (s : string) : bool :=
  match x with VStr s' => String.eqb s' s | _ => false end.

(** [b == v] for a bool [b]: Python compares [True]/[False] with numbers by
    value. *)
Definition eq_bool (b : bool) (v : value) : bool :=
  match v with
  | VBool b' => Bool.eqb b b'
  | VInt n => (n =? (if b then 1 else 0))%Z
  | _ => false
  end.

(** [k in v] for a string [k] *)
Definition contains_str (k : string) (v : value) : outcome bool :=
  match v with
  | VDict d => Ret (match assoc k d with Some _ => true | None => false end)
  | VList items => Ret (existsb (fun x => eq_str x k) items)
  | VStr s => Ret (contains k s)
  | _ => Raise not_iterable
  end.

(** The items a [for] loop (or a comprehension) visits. *)
Definition iterate (v : value) : outcome (list value) :=
  match v with
  | VList items => Ret items
  | VDict d => Ret (map (fun kv => VStr (fst kv)) d)
  | VStr s =>
      Ret (map (fun c => VStr (String c EmptyString)) (list_ascii_of_string s))
  | _ => Raise not_iterable
  end.

(** [len(v)] *)
Definition len (v : value) : outcome nat :=
  match v with
  | VList items => Ret (length items)
  | VDict d => Ret (length d)
  | VStr s => Ret (String.length s)
  | _ => Raise (Exn TypeError [Interp "object has no len()"])
  end.

(** *** State and exceptions: [M S A] is a computation over a state [S]
    that returns an [A] or raises; the state survives an exception. *)

Definition M (S A : Type) : Type := S -> outcome A * S.

Definition ret {S A} (a : A) : M S A := fun s => (Ret a, s).

Definition raise {S A} (e : exn) : M S A := fun s => (Raise e, s).

Definition bind {S A B} (m : M S A) (k : A -> M S B) : M S B :=
  fun s =>
    match m s with
    | (Ret a, s') => k a s'
    | (Raise e, s') => (Raise e, s')
    end.

(** [try: m except Exception as e: h e] *)
Definition try_except {S A} (m : M S A) (h : exn -> M S A) : M S A :=
  fun s =>
    match m s with
    | (Ret a, s') => (Ret a, s')
    | (Raise e, s') => h e s'
    end.

Definition lift {S A} (o : outcome A) : M S A := fun s => (o, s).

(** Running a computation on the trace inside a method of an object [X]. *)
Definition on_net {X T A} (m : M T A) : M (X * T) A :=
  fun s =>
    match m (snd s) with
    | (o, t') => (o, (fst s, t'))
    end.

Definition get_self {X T} : M (X * T) X := fun s => (Ret (fst s), s).

Definition set_self {X T} (x : X) : M (X * T) unit :=
  fun s => (Ret tt, (x, snd s)).

(** A method call on a local object that is dropped afterwards. *)
Definition with_object {X T A} (x : X) (m : M (X * T) A) : M T A :=
  fun t =>
    match m (x, t) with
    | (o, s') => (o, snd s')
    end.

Definition get_state {S} : M S S := fun s => (Ret s, s).

Definition put_state {S} (s : S) : M S unit := fun _ => (Ret tt, s).

(** Both [outcome] and [M S] are used with the notation [x ← m; k]. *)
#[global] Instance outcome_ret : MRet outcome := fun A a => Ret a.

#[global] Instance outcome_bind : MBind outcome := fun A B k o =>
  match o with
  | Ret a => k a
  | Raise e => Raise e
  end.


#[global] Instance M_ret {S} : MRet (M S) := fun A a => ret a.

#[global] Instance M_bind {S} : MBind (M S) := fun A B k m => bind m k.

(** [[f(x) for x in xs]], stopping at the first exception *)
Fixpoint map_outcome {A B} (f : A -> outcome B) (xs : list A)
  : outcome (list B) :=
  match xs with
  | [] => Ret []
  | x :: rest =>
      y ← f x;
      ys ← map_outcome f rest;
      Ret (y :: ys)
  end.

(** [[x for x in xs if p(x)]], stopping at the first exception *)
Fixpoint filter_outcome {A} (p : A -> outcome bool) (xs : list A)
  : outcome (list A) :=
  match xs with
  | [] => Ret []
  | x :: rest =>
      keep ← p x;
      ys ← filter_outcome p rest;
      Ret (if (keep : bool) then x :: ys else ys)
  end.

End Py.

Export Py.

(** ** The outside world: HTTP, JSON, JWT and key decoding *)

Module World.

Inductive http_method : Type := GET | POST.

(** The JSON-RPC body of a POST ([jsonrpc] is always ["2.0"]). *)
Record rpc_body : Type := RpcBody {
  rpc_id : message;
  rpc_method : string;
  rpc_params : value
}.

Record request : Type := Request {
  req_method : http_method;
  req_url : string;
  req_json : option rpc_body
}.

(** An [aiohttp.ClientResponse]: its status and what its readers give. *)
Record response : Type := Response {
  status : Z;
  read : outcome (list byte);
  text : outcome string;
  json : outcome value
}.

(** What the program does to the outside, in order. *)
Inductive event : Type :=
  | SessionCreated            (* aiohttp.ClientSession(...) *)
  | Sent (r : request).       (* session.get(url) / session.post(url, json=...) *)

Definition trace : Type := list event.

Inductive public_key : Type := RsaPublicKey (n e : Z).

Inductive private_key : Type := RsaPrivateKey (n d : Z).

(** The protected header of a compact JWS, as [jwt.get_unverified_header]
    returns it (PyJWT rejects a [kid] that is not a string). *)
Record jws_header : Type := JwsHeader {
  h_alg : option value;
  h_kid : option string
}.

(** What the code reads of the result of [urlparse]. *)
Record parsed_url : Type := ParseResult {
  scheme : string;
  netloc : string
}.

Record Env : Type := {
  (** the answer to a request, given everything done before it *)
  respond : trace -> request -> outcome response;
  (** [json.loads] *)
  json_loads : string -> outcome value;
  (** [urlparse(url)] and [urljoin(base, ref)]; both raise [ValueError] on
      an address they cannot split *)
  urlparse : string -> outcome parsed_url;
  urljoin : string -> string -> outcome string;
  (** [jwt.get_unverified_header(token)] *)
  get_unverified_header : string -> outcome jws_header;
  (** [jwt.decode(token, key, algorithms=[alg], options={"verify_exp": False})] *)
  jwt_decode : string -> public_key -> value -> outcome value;
  (** [jwt.algorithms.RSAAlgorithm.from_jwk(json.dumps(jwk))] *)
  from_jwk : value -> outcome public_key;
  (** [serialization.load_pem_public_key(data, backend=default_backend())] *)
  load_pem_public_key : list byte -> outcome public_key;
  (** [jwt.encode(payload, key, algorithm="RS256", headers=headers)] *)
  jwt_encode : value -> private_key -> value -> outcome string
}.

Section Http.
Variable env : Env.

(** [aiohttp.ClientSession()] *)
Definition open_session : M trace unit :=
  fun t => (Ret tt, t ++ [SessionCreated]).

(** entering [session.get(...)] or [session.post(...)] *)
Definition send (r : request) : M trace response :=
  fun t => (respond env t r, t ++ [Sent r]).

(** [response.raise_for_status()] *)
Definition raise_for_status (r : response) : outcome unit :=
  if (400 <=? status r)%Z
  then Raise (Exn ClientError [Interp "ClientResponseError"])
  else Ret tt.

(** [session.get(url)] with a [url] that may be any value: aiohttp
    refuses what is not a string before anything is sent. *)
Definition http_get (url : value) : M trace response :=
  match url with
  | VStr u => send (Request GET u None)
  | _ => raise (Exn TypeError [Interp "invalid URL"])
  end.
End Http.

End World.

Export World.

(** ** [eat/security.py] *)

Module Security.

(** [compute_sha256(content)] *)
Definition compute_sha256 (content : list byte) : string :=
  Sha256.hexdigest content.

#[global] Arguments compute_sha256 : simpl never.

(** [SecurityError(f"{prefix}{e}")] *)
Definition security_error (prefix : string) (e : exn) : exn :=
  Exn SecurityError (Lit prefix :: msg e).

(** [not key_id] for an [Optional[str]] *)
Definition no_key_id (key_id : option string) : bool :=
  match key_id with
  | None => true
  | Some k => String.eqb k ""
  end.

(** [v.endswith(suffix)] *)
Definition value_endswith (v : value) (suffix : string) : outcome bool :=
  match v with
  | VStr s => Ret (endswith s suffix)
  | _ => Raise (no_attribute "endswith")
  end.

Record CatalogVerifier : Type := {
  trusted_keys : gmap string string
}.

Section WithEnv.
Variable env : Env.

(** [verify_content_integrity(url, expected_hash)] *)
Definition verify_content_integrity (url expected_hash : string)
  : M trace bool :=
  try_except
    (open_session;;
     response ← send env (Request GET url None);
     lift (raise_for_status response);;
     content ← lift (read response);
     let actual_hash := compute_sha256 content in
     mret (String.eqb actual_hash expected_hash))
    (fun e => mret false).

(** [CatalogVerifier._load_public_key_from_string] *)
Definition _load_public_key_from_string (key_string : string)
  : outcome public_key :=
  match load_pem_public_key env (encode key_string) with
  | Ret k => Ret k
  | Raise e => Raise (security_error "Invalid public key format: " e)
  end.

(** The loop of [_extract_public_key_from_did]. *)
Fixpoint did_methods (key_id : option string) (methods : list value)
  : outcome public_key :=
  match methods with
  | [] =>
      Raise (Exn SecurityError
               [Lit "No suitable public key found in DID document"])
  | method :: rest =>
      selected ←
        (if no_key_id key_id then Ret true
         else
           mid ← get method "id" (VStr "");
           value_endswith mid (default "" key_id));
      if (selected : bool) then
        public_key_jwk ← get method "publicKeyJwk" VNone;
        if truthy public_key_jwk then from_jwk env public_key_jwk
        else did_methods key_id rest
      else did_methods key_id rest
  end.

(** [CatalogVerifier._extract_public_key_from_did] *)
Definition _extract_public_key_from_did
    (did_document : value) (key_id : option string) : outcome public_key :=
  verification_methods ← get did_document "verificationMethod" (VList []);
  methods ← iterate verification_methods;
  did_methods key_id methods.

(** The loop of [_get_key_from_jwks]. *)
Fixpoint jwks_keys (key_id : option string) (keys : list value)
  : outcome public_key :=
  match keys with
  | [] => Raise (Exn SecurityError [Lit "No suitable key found in JWKS"])
  | key :: rest =>
      selected ←
        (if no_key_id key_id then Ret true
         else
           kid ← get key "kid" VNone;
           Ret (eq_str kid (default "" key_id)));
      if (selected : bool) then from_jwk env key
      else jwks_keys key_id rest
  end.

(** [CatalogVerifier._get_key_from_jwks] *)
Definition _get_key_from_jwks (catalog_url : string)
    (key_id : option string) : M trace public_key :=
  parsed_url ← lift (urlparse env catalog_url);
  let jwks_url :=
    scheme parsed_url +:+ "://" +:+ netloc parsed_url
      +:+ "/.well-known/jwks.json" in
  try_except
    (open_session;;
     response ← send env (Request GET jwks_url None);
     lift (raise_for_status response);;
     jwks ← lift (json response);
     keys ← lift (get jwks "keys" (VList []));
     items ← lift (iterate keys);
     lift (jwks_keys key_id items))
    (fun e => raise (security_error "Could not retrieve JWKS: " e)).

#[global] Arguments _get_key_from_jwks : simpl never.

(** [CatalogVerifier._get_public_key] *)
Definition _get_public_key (self : CatalogVerifier) (catalog_url : string)
    (key_id : option string) : M trace public_key :=
  try_except
    (parsed_url ← lift (urlparse env catalog_url);
     let domain := netloc parsed_url in
     let did_web_url := "https://" +:+ domain +:+ "/.well-known/did.json" in
     open_session;;
     response ← send env (Request GET did_web_url None);
     if (status response =? 200)%Z then
       did_document ← lift (json response);
       lift (_extract_public_key_from_did did_document key_id)
     else
       (* Fallback: look for trusted key in configuration *)
       match (if no_key_id key_id then None
              else trusted_keys self !! default "" key_id) with
       | Some key_string => lift (_load_public_key_from_string key_string)
       | None =>
           (* Fallback: use jwks_uri from catalog metadata *)
           _get_key_from_jwks catalog_url key_id
       end)
    (fun e =>
       raise (security_error
                "Could not retrieve public key for verification: " e)).

#[global] Arguments _get_public_key : simpl never.

(** [CatalogVerifier.verify_catalog] *)
Definition verify_catalog (self : CatalogVerifier)
    (signed_catalog catalog_url : string) : M trace value :=
  try_except
    (header ← lift (get_unverified_header env signed_catalog);
     let algorithm := default (VStr "RS256") (h_alg header) in
     let key_id := h_kid header in
     public_key ← _get_public_key self catalog_url key_id;
     lift (jwt_decode env signed_catalog public_key algorithm))
    (fun e =>
       match cls e with
       | InvalidTokenError =>
           raise (security_error
                    "Catalog signature verification failed: " e)
       | _ => raise (security_error "Catalog verification failed: " e)
       end).
End WithEnv.

End Security.

(** ** Mutable objects: the heap the signer works on

    [CatalogSigner] receives the caller's catalog by reference and writes
    into dicts; lists and dicts live in a store and are shared through
    [HRef]. *)

Module Heap.

Definition loc : Type := nat.

Inductive hval : Type :=
  | HNone
  | HBool (b : bool)
  | HInt (n : Z)
  | HStr (s : string)
  | HRef (l : loc).

Inductive hobj : Type :=
  | HList (items : list hval)
  | HDict (entries : list (string * hval)).

Abbreviation heap := (gmap loc hobj).

(** A new object at an unused address. *)
Definition alloc (o : hobj) : M heap hval :=
  fun h => let l := fresh (dom h) in (Ret (HRef l), <[l := o]> h).

Definition dangling : exn := Exn OtherException [Interp "dangling reference"].

Definition deref (v : hval) (attr : string) : M heap hobj :=
  fun h =>
    match v with
    | HRef l =>
        match h !! l with
        | Some o => (Ret o, h)
        | None => (Raise dangling, h)
        end
    | _ => (Raise (no_attribute attr), h)
    end.

(** [bool(v)] *)
Definition htruthy (h : heap) (v : hval) : bool :=
  match v with
  | HNone => false
  | HBool b => b
  | HInt n => negb (n =? 0)%Z
  | HStr s => negb (String.eqb s "")
  | HRef l =>
      match h !! l with
      | Some (HList (_ :: _)) | Some (HDict (_ :: _)) => true
      | _ => false
      end
  end.

(** [v.copy()]: a new object with the same items (a shallow copy). *)
Definition copy (v : hval) : M heap hval :=
  o ← deref v "copy";
  alloc o.

(** [v.get(k, default)] *)
Definition hget (v : hval) (k : string) (default : hval) : M heap hval :=
  o ← deref v "get";
  match o with
  | HDict d => mret (match assoc k d with Some x => x | None => default end)
  | HList _ => raise (no_attribute "get")
  end.

(** [k in v] for a dict [v] *)
Definition hcontains (k : string) (v : hval) : M heap bool :=
  o ← deref v "__contains__";
  match o with
  | HDict d => mret (match assoc k d with Some _ => true | None => false end)
  | HList items =>
      mret (existsb (fun x => match x with
                              | HStr s => String.eqb s k
                              | _ => false
                              end) items)
  end.

(** [v[k] = x] *)
Definition hsetitem (v : hval) (k : string) (x : hval) : M heap unit :=
  fun h =>
    match v with
    | HRef l =>
        match h !! l with
        | Some (HDict d) => (Ret tt, <[l := HDict (assoc_set k x d)]> h)
        | Some (HList _) =>
            (Raise (Exn TypeError [Interp "list indices must be integers"]), h)
        | None => (Raise dangling, h)
        end
    | _ => (Raise (Exn TypeError [Interp "does not support item assignment"]), h)
    end.

(** The items a [for] loop visits. *)
Definition hiterate (v : hval) : M heap (list hval) :=
  fun h =>
    match v with
    | HRef l =>
        match h !! l with
        | Some (HList items) => (Ret items, h)
        | Some (HDict d) => (Ret (map (fun kv => HStr (fst kv)) d), h)
        | None => (Raise dangling, h)
        end
    | HStr s =>
        (Ret (map (fun c => HStr (String c EmptyString))
                  (list_ascii_of_string s)), h)
    | _ => (Raise not_iterable, h)
    end.

(** The value a reference stands for, read through the heap; [None] when
    the fuel runs out (a cyclic structure) or a reference dangles. *)
Fixpoint reify (fuel : nat) (h : heap) (v : hval) : option value :=
  match v with
  | HNone => Some VNone
  | HBool b => Some (VBool b)
  | HInt n => Some (VInt n)
  | HStr s => Some (VStr s)
  | HRef l =>
      match fuel with
      | O => None
      | S fuel' =>
          match h !! l with
          | Some (HList items) =>
              VList <$> mapM (reify fuel' h) items
          | Some (HDict d) =>
              VDict <$> mapM (fun kv => pair (fst kv) <$> reify fuel' h (snd kv)) d
          | None => None
          end
      end
  end.

(** The document a reference denotes in a heap. *)
Definition snapshot (h : heap) (v : hval) : option value :=
  reify (S (size h)) h v.

#[global] Arguments snapshot : simpl never.

(** Evaluating a literal: every list and dict display makes a new object. *)
Fixpoint store (v : value) (h : heap) : hval * heap :=
  match v with
  | VNone => (HNone, h)
  | VBool b => (HBool b, h)
  | VInt n => (HInt n, h)
  | VStr s => (HStr s, h)
  | VList items =>
      let fix go (xs : list value) (h : heap) : list hval * heap :=
        match xs with
        | [] => ([], h)
        | x :: rest =>
            let (hx, h1) := store x h in
            let (hr, h2) := go rest h1 in
            (hx :: hr, h2)
        end in
      let (hitems, h1) := go items h in
      let l := fresh (dom h1) in
      (HRef l, <[l := HList hitems]> h1)
  | VDict entries =>
      let fix go (xs : list (string * value)) (h : heap)
        : list (string * hval) * heap :=
        match xs with
        | [] => ([], h)
        | (k, x) :: rest =>
            let (hx, h1) := store x h in
            let (hr, h2) := go rest h1 in
            ((k, hx) :: hr, h2)
        end in
      let (hentries, h1) := go entries h in
      let l := fresh (dom h1) in
      (HRef l, <[l := HDict hentries]> h1)
  end.

End Heap.

Export Heap.

Module Signer.

Record CatalogSigner : Type := {
  private_key_ : private_key;
  key_id_ : option string
}.

(** [CatalogSigner._compute_placeholder_hash] *)
Definition _compute_placeholder_hash (url : hval) : outcome string :=
  match url with
  | HStr u => Ret (Sha256.hexdigest (encode u))
  | _ => Raise (no_attribute "encode")
  end.

(** The loop of [_add_content_hashes]. *)
Fixpoint add_hashes (tools : list hval) : M heap unit :=
  match tools with
  | [] => mret tt
  | tool :: rest =>
      spec_url ← hget tool "spec_url" HNone;
      h ← get_state;
      missing ←
        (if htruthy h spec_url
         then present ← hcontains "spec_hash" tool; mret (negb present)
         else mret false);
      (if (missing : bool) then
         digest ← lift (_compute_placeholder_hash spec_url);
         hsetitem tool "spec_hash" (HStr digest)
       else mret tt);;
      add_hashes rest
  end.

(** [CatalogSigner._add_content_hashes] *)
Definition _add_content_hashes (catalog : hval) : M heap hval :=
  catalog_copy ← copy catalog;
  empty ← alloc (HList []);
  tools ← hget catalog_copy "tools" empty;
  items ← hiterate tools;
  add_hashes items;;
  mret catalog_copy.

Section WithEnv.
Variable env : Env.

(** [CatalogSigner.sign_catalog]; the payload handed to [jwt.encode] is
    the document [catalog_with_hashes] denotes at that moment. *)
Definition sign_catalog (self : CatalogSigner) (catalog : hval)
  : M heap string :=
  try_except
    (catalog_with_hashes ← _add_content_hashes catalog;
     let headers :=
       VDict ([("alg", VStr "RS256"); ("typ", VStr "JWT")] ++
              match key_id_ self with
              | Some k => if String.eqb k "" then [] else [("kid", VStr k)]
              | None => []
              end) in
     h ← get_state;
     payload ←
       match snapshot h catalog_with_hashes with
       | Some v => mret v
       | None => raise (Exn ValueError [Interp "Circular reference detected"])
       end;
     lift (jwt_encode env payload (private_key_ self) headers))
    (fun e => raise e).
End WithEnv.

End Signer.

(** ** [eat/mcp_client.py] *)

Module McpClient.

Record MCPClient : Type := {
  endpoint : string;
  timeout : Z;
  _session : bool          (* whether [self._session] holds a session *)
}.

(** [MCPClient(endpoint)], with the default timeout *)
Definition init (endpoint : value) : outcome MCPClient :=
  match endpoint with
  | VStr e =>
      Ret {| endpoint := rstrip "/" e; timeout := 30; _session := false |}
  | _ => Raise (no_attribute "rstrip")
  end.

(** [MCPClient._get_session] *)
Definition _get_session : M (MCPClient * trace) unit :=
  self ← get_self;
  if _session self then mret tt
  else
    on_net open_session;;
    set_self {| endpoint := endpoint self; timeout := timeout self;
                _session := true |}.

Section WithEnv.
Variable env : Env.

(** What the three methods do with the decoded response: an [error]
    member raises, otherwise [extract] reads the result. *)
Definition mcp_error (error : value) : outcome exn :=
  code ← get error "code" (VStr "unknown");
  message ← get error "message" (VStr "Unknown error");
  Ret (Exn MCPError [Lit "MCP Error "; Fmt code; Lit ": "; Fmt message]).

Definition wrap_errors {S A} (m : M S A) : M S A :=
  try_except m
    (fun e =>
       match cls e with
       | ClientError => raise (Exn MCPError (Lit "Network error: " :: msg e))
       | _ => raise (Exn MCPError (Lit "Unexpected error: " :: msg e))
       end).

(** The request of the three methods, from [urljoin] to [response.json()];
    the source runs all of it inside its [try]. *)
Definition post (request_data : rpc_body) : M (MCPClient * trace) value :=
  self ← get_self;
  url ← lift (urljoin env (endpoint self) "/mcp");
  response ← on_net (send env (Request POST url (Some request_data)));
  lift (raise_for_status response);;
  lift (json response).

(** The [request_data] of [call_tool]. *)
Definition call_request_data (tool_id params : value) : rpc_body :=
  {| rpc_id := [Lit "tool_"; Fmt tool_id; Lit "_"; Interp "id(params)"];
     rpc_method := "tools/call";
     rpc_params := VDict [("name", tool_id); ("arguments", params)] |}.

(** [MCPClient.call_tool(tool, params)]; only [tool.id] is used. *)
Definition call_tool (tool_id params : value)
  : M (MCPClient * trace) value :=
  _get_session;;
  let request_data := call_request_data tool_id params in
  wrap_errors
    (result ← post request_data;
     has_error ← lift (contains_str "error" result);
     if (has_error : bool) then
       error ← lift (getitem result "error");
       e ← lift (mcp_error error);
       raise e
     else lift (get result "result" (VDict []))).

(** [MCPClient.list_tools()] *)
Definition list_tools : M (MCPClient * trace) value :=
  _get_session;;
  let request_data :=
    {| rpc_id := [Lit "list_tools"];
       rpc_method := "tools/list";
       rpc_params := VDict [] |} in
  wrap_errors
    (result ← post request_data;
     has_error ← lift (contains_str "error" result);
     if (has_error : bool) then
       error ← lift (getitem result "error");
       e ← lift (mcp_error error);
       raise e
     else
       r ← lift (get result "result" (VDict []));
       lift (get r "tools" (VList []))).

(** [MCPClient.get_tool_schema(tool_name)] *)
Definition get_tool_schema (tool_name : string)
  : M (MCPClient * trace) value :=
  _get_session;;
  let request_data :=
    {| rpc_id := [Lit "schema_"; Fmt (VStr tool_name)];
       rpc_method := "tools/get";
       rpc_params := VDict [("name", VStr tool_name)] |} in
  wrap_errors
    (result ← post request_data;
     has_error ← lift (contains_str "error" result);
     if (has_error : bool) then
       error ← lift (getitem result "error");
       e ← lift (mcp_error error);
       raise e
     else lift (get result "result" (VDict []))).
End WithEnv.

End McpClient.

(** ** [eat/discovery.py] *)

Module Discovery.
Import Security McpClient.

Record Tool : Type := {
  spec : value;
  id : value;
  description : value;
  parameters : value;
  examples : value;
  server_url : value;
  capabilities : value
}.

(** [Tool.__init__(spec, catalog)] *)
Definition Tool_init (spec : value) : outcome Tool :=
  operation_id ← get spec "operationId" (VStr "");
  id ← get spec "name" operation_id;
  description ← get spec "description" (VStr "");
  parameters ← get spec "parameters" (VDict []);
  x1 ← get spec "x-mcp-tool" (VDict []);
  examples ← get x1 "examples" (VList []);
  x2 ← get spec "x-mcp-tool" (VDict []);
  server_url ← get x2 "server_url" (VStr "");
  x3 ← get spec "x-mcp-tool" (VDict []);
  capabilities ← get x3 "capabilities" (VList []);
  Ret {| spec := spec; id := id; description := description;
         parameters := parameters; examples := examples;
         server_url := server_url; capabilities := capabilities |}.

Record Catalog : Type := {
  url : string;
  verify_signatures : bool;
  _catalog_data : value;
  _tools : option (list Tool);
  _verifier : option CatalogVerifier
}.

(** [Catalog(url, verify_signatures)] *)
Definition Catalog_init (url : string) (verify_signatures : bool) : Catalog :=
  {| url := url;
     verify_signatures := verify_signatures;
     _catalog_data := VNone;
     _tools := None;
     _verifier := if verify_signatures
                  then Some {| trusted_keys := ∅ |} else None |}.

Definition set_catalog_data (data : value) : M (Catalog * trace) unit :=
  self ← get_self;
  set_self {| url := url self; verify_signatures := verify_signatures self;
              _catalog_data := data; _tools := _tools self;
              _verifier := _verifier self |}.

Definition set_tools (tools : list Tool) : M (Catalog * trace) unit :=
  self ← get_self;
  set_self {| url := url self; verify_signatures := verify_signatures self;
              _catalog_data := _catalog_data self; _tools := Some tools;
              _verifier := _verifier self |}.

(** [not o] for an optional object *)
Definition is_none {A} (o : option A) : bool :=
  match o with
  | None => true
  | Some _ => false
  end.

Definition not_fetched : exn :=
  Exn RuntimeError [Lit "Catalog not fetched. Call fetch() first."].

(** [v.lower()] *)
Definition value_lower {U : Unicode} (v : value) : outcome string :=
  match v with
  | VStr s => Ret (lower s)
  | _ => Raise (no_attribute "lower")
  end.

(** One keyword filter of [find]; unknown keys leave the list as it is. *)
Definition apply_filter {U : Unicode} (results : list Tool)
    (kv : string * value) : outcome (list Tool) :=
  if String.eqb (fst kv) "description_contains" then
    filter_outcome
      (fun tool =>
         needle ← value_lower (snd kv);
         hay ← value_lower (description tool);
         Ret (contains needle hay))
      results
  else if String.eqb (fst kv) "has_examples" then
    Ret (List.filter (fun tool => eq_bool (truthy (examples tool)) (snd kv))
                     results)
  else Ret results.

Fixpoint apply_filters {U : Unicode} (results : list Tool)
    (filters : list (string * value)) : outcome (list Tool) :=
  match filters with
  | [] => Ret results
  | kv :: rest =>
      results' ← apply_filter results kv;
      apply_filters results' rest
  end.

(** [Catalog.find(capability, **filters)] *)
Definition find {U : Unicode} (capability : option string)
    (filters : list (string * value)) : M (Catalog * trace) (list Tool) :=
  self ← get_self;
  if negb (truthy (_catalog_data self)) then raise not_fetched
  else
    (match _tools self with
     | Some (_ :: _) => mret tt
     | _ =>
         specs ← lift (get (_catalog_data self) "tools" (VList []));
         items ← lift (iterate specs);
         tools ← lift (map_outcome Tool_init items);
         set_tools tools
     end);;
    self ← get_self;
    let results := default [] (_tools self) in
    results ←
      (match capability with
       | Some c =>
           if String.eqb c "" then mret results
           else lift (filter_outcome
                        (fun tool => contains_str c (capabilities tool))
                        results)
       | None => mret results
       end);
    lift (apply_filters results filters).

(** The loop of [Catalog.get_tool]. *)
Fixpoint first_with_id (tool_id : string) (tools : list Tool) : option Tool :=
  match tools with
  | [] => None
  | tool :: rest =>
      if eq_str (id tool) tool_id then Some tool
      else first_with_id tool_id rest
  end.

(** [Catalog.get_tool(tool_id)] *)
Definition get_tool {U : Unicode} (tool_id : string)
  : M (Catalog * trace) (option Tool) :=
  tools ← find None [];
  mret (first_with_id tool_id tools).

Section WithEnv.
Variable env : Env.

(** [Tool.call], with the keyword arguments as the dict [params] *)
Definition call (self : Tool) (params : value) : M trace value :=
  if negb (truthy (server_url self)) then
    raise (Exn ValueError
             [Lit "No server URL configured for tool "; Fmt (id self)])
  else
    client ← lift (McpClient.init (server_url self));
    with_object client (call_tool env (id self) params).

(** [Catalog.fetch()] *)
Definition fetch : M (Catalog * trace) value :=
  try_except
    (self ← get_self;
     content ← on_net
       (open_session;;
        response ← send env (Request GET (url self) None);
        lift (raise_for_status response);;
        lift (text response));
     (* Parse catalog data *)
     data ←
       (if endswith (url self) ".json" then lift (json_loads env content)
        else
          (* Assume JWS format for non-JSON URLs *)
          match _verifier self with
          | Some verifier =>
              on_net (verify_catalog env verifier content (url self))
          | None =>
              (* Try to parse as raw JSON if verification disabled *)
              lift (json_loads env content)
          end);
     set_catalog_data data;;
     self ← get_self;
     tools ← lift (get (_catalog_data self) "tools" (VList []));
     lift (len tools);;
     mret (_catalog_data self))
    (fun e => raise e).

(** [Catalog._verify_content_integrity(url, expected_hash)] *)
Definition _verify_content_integrity (url expected_hash : value)
  : M trace bool :=
  try_except
    (open_session;;
     response ← http_get env url;
     lift (raise_for_status response);;
     content ← lift (read response);
     let actual_hash := Sha256.hexdigest content in
     mret (eq_str expected_hash actual_hash))
    (fun e => mret false).

#[global] Arguments _verify_content_integrity : simpl never.

(** The loop of [Catalog.verify]. *)
Fixpoint verify_tools (tools : list value) : M trace bool :=
  match tools with
  | [] => mret true
  | tool_spec :: rest =>
      spec_url ← lift (get tool_spec "spec_url" VNone);
      expected_hash ← lift (get tool_spec "spec_hash" VNone);
      if truthy spec_url && truthy expected_hash then
        ok ← _verify_content_integrity spec_url expected_hash;
        if (ok : bool) then verify_tools rest else mret false
      else verify_tools rest
  end.

(** [Catalog.verify()] *)
Definition verify : M (Catalog * trace) bool :=
  self ← get_self;
  if negb (verify_signatures self) || is_none (_verifier self)
  then mret true
  else
    (if negb (truthy (_catalog_data self)) then fetch;; mret tt
     else mret tt);;
    try_except
      (self ← get_self;
       specs ← lift (get (_catalog_data self) "tools" (VList []));
       items ← lift (iterate specs);
       on_net (verify_tools items))
      (fun e => mret false).
End WithEnv.

End Discovery.

Import Security Signer McpClient Discovery.

(** ** Vocabulary of the design document *)

Module Spec.

(** At trace [t], a new session's GET of [url] answers with a status below
    400 and the body [content]. *)
Definition fetched (env : Env) (t : trace) (url : string)
    (content : list byte) : Prop :=
  exists r,
    respond env (t ++ [SessionCreated]) (Request GET url None) = Ret r /\
    (status r < 400)%Z /\
    read r = Ret content.

Definition is_hex_digit (c : ascii) : bool :=
  let n := N_of_ascii c in
  ((48 <=? n) && (n <=? 57) || (97 <=? n) && (n <=? 102))%N.

(** A digest string as [hexdigest] writes it: 64 lower-case hex digits. *)
Definition well_formed_digest (s : string) : bool :=
  (String.length s =? 64)%nat &&
  forallb is_hex_digit (list_ascii_of_string s).

(** "Throws only for programmer misuse (malformed expected-digest
    string)": a malformed expected digest is answered with an exception. *)
Definition misuse_is_raised (env : Env) (url expected : string) (t : trace)
  : Prop :=
  well_formed_digest expected = false ->
  exists e, fst (verify_content_integrity env url expected t) = Raise e.

End Spec.

(** ** Concrete worlds *)

Module Fixtures.

(** The case mapping of ASCII text: the letters [A] to [Z] are lowered and
    every other byte is kept, which is what Python does to a text without
    other cased letters. *)
Definition lower_ascii (c : ascii) : ascii :=
  let n := N_of_ascii c in
  if ((65 <=? n) && (n <=? 90))%N then ascii_of_N (n + 32) else c.

Fixpoint lower_ascii_text (s : string) : string :=
  match s with
  | EmptyString => EmptyString
  | String c rest => String (lower_ascii c) (lower_ascii_text rest)
  end.

Definition ascii_text : Unicode := lower_ascii_text.

(** The authority of what follows [://]: the text up to the first [/], [?]
    or [#]. *)
Fixpoint authority (s : string) : string :=
  match s with
  | EmptyString => EmptyString
  | String c rest =>
      if Ascii.eqb c "/" || Ascii.eqb c "?" || Ascii.eqb c "#"
      then EmptyString
      else String c (authority rest)
  end.

(** [urlparse] on the addresses of the examples, [scheme://authority]
    followed by a path or by nothing: the scheme is lowered, and an
    authority with a bracket that is not closed (or not opened) is refused,
    as urllib refuses it.  A text without [://] is given no scheme and no
    authority (urllib still finds a scheme in one such as [mailto:x]; the
    examples have none). *)
Definition split_address (url : string) : outcome parsed_url :=
  match index 0 "://" url with
  | Some n =>
      let a := authority (substring (n + 3) (String.length url) url) in
      if xorb (contains "[" a) (contains "]" a)
      then Raise (Exn ValueError [Lit "Invalid IPv6 URL"])
      else Ret {| scheme := lower_ascii_text (substring 0 n url);
                  netloc := a |}
  | None => Ret {| scheme := ""; netloc := "" |}
  end.

(** [urljoin(base, ref)] for a reference that is an absolute path, as
    [/mcp] is, and the bases of the examples: on an [http] or [https]
    address the path replaces whatever follows the authority, and an empty
    base or one without [://] gives the reference alone. *)
Definition join_path (base ref : string) : outcome string :=
  if String.eqb base "" then Ret ref
  else
    parsed ← split_address base;
    if String.eqb (scheme parsed) "http" || String.eqb (scheme parsed) "https"
    then Ret (scheme parsed +:+ "://" +:+ netloc parsed +:+ ref)
    else Ret ref.

(** No server answers and every library call other than the URL helpers
    fails. *)
Definition offline : Env := {|
  respond := fun _ _ => Raise (Exn ClientError [Interp "connection refused"]);
  json_loads := fun _ => Raise (Exn JSONDecodeError [Interp "json.loads"]);
  urlparse := split_address;
  urljoin := join_path;
  get_unverified_header :=
    fun _ => Raise (Exn InvalidTokenError [Interp "DecodeError"]);
  jwt_decode :=
    fun _ _ _ => Raise (Exn InvalidTokenError [Interp "InvalidSignatureError"]);
  from_jwk := fun _ => Raise (Exn OtherException [Interp "InvalidKeyError"]);
  load_pem_public_key := fun _ => Raise (Exn ValueError [Interp "PEM"]);
  jwt_encode := fun _ _ _ => Raise (Exn TypeError [Interp "jwt.encode"])
|}.

(** An answer with status 200 whose body reads as [body], as [body_text]
    and decodes to [body_json]. *)
Definition ok_response (body_text : string) (body_json : outcome value)
  : response :=
  {| status := 200;
     read := Ret (encode body_text);
     text := Ret body_text;
     json := body_json |}.

Definition not_json : outcome value :=
  Raise (Exn ClientError [Interp "ContentTypeError"]).

Definition not_found : response :=
  {| status := 404;
     read := Ret [];
     text := Ret "";
     json := not_json |}.

(** [env] with the servers of [pages] (by URL, whatever happened before)
    and with [json.loads] known on the texts of [texts]. *)
Definition serving (pages : list (string * response))
    (texts : list (string * value)) (env : Env) : Env := {|
  respond := fun _ r =>
    match assoc (req_url r) pages with
    | Some resp => Ret resp
    | None => Ret not_found
    end;
  json_loads := fun s =>
    match assoc s texts with
    | Some v => Ret v
    | None => json_loads env s
    end;
  urlparse := urlparse env;
  urljoin := urljoin env;
  get_unverified_header := get_unverified_header env;
  jwt_decode := jwt_decode env;
  from_jwk := from_jwk env;
  load_pem_public_key := load_pem_public_key env;
  jwt_encode := jwt_encode env
|}.

(** A tool entry without [x-mcp-tool], as in the test suite. *)
Definition no_server_tool : Tool :=
  {| spec := VDict [("name", VStr "no_server_tool")];
     id := VStr "no_server_tool";
     description := VStr "";
     parameters := VDict [];
     examples := VList [];
     server_url := VStr "";
     capabilities := VList [] |}.

End Fixtures.

Module SpecId.

(** The public id of a catalog entry: its [name], else its [operationId],
    else the empty string. *)
Definition derived_id (entries : list (string * value)) : value :=
  match assoc "name" entries with
  | Some name => name
  | None =>
      match assoc "operationId" entries with
      | Some operation_id => operation_id
      | None => VStr ""
      end
  end.

(** A catalog that has been fetched: its document is [data] and no tool
    object has been built yet. *)
Definition fetched_catalog (url : string) (data : value) : Catalog :=
  {| url := url; verify_signatures := false; _catalog_data := data;
     _tools := None; _verifier := None |}.




End SpecId.

Module SpecInvoke.

(** The trace at the moment [call_tool] posts: a client without a session
    creates one first. *)
Definition session_trace (self : MCPClient) (t : trace) : trace :=
  if _session self then t else t ++ [SessionCreated].

(** The POST of [call_tool], to the address [target] that [urljoin] made
    of the endpoint. *)
Definition call_post (target : string) (tool_id params : value) : request :=
  Request POST target (Some (call_request_data tool_id params)).

(** The server answers the call with a status below 400 and the JSON
    object [entries]; the call was posted, so [urljoin] gave an address. *)
Definition answered (env : Env) (self : MCPClient) (t : trace)
    (tool_id params : value) (entries : list (string * value)) : Prop :=
  exists target r,
    urljoin env (endpoint self) "/mcp" = Ret target /\
    respond env (session_trace self t) (call_post target tool_id params)
      = Ret r /\
    (status r < 400)%Z /\
    json r = Ret (VDict entries).

(** The envelope rule of the design document, read generously: any
    exception counts as the error it asks for. *)
Definition envelope_rule (env : Env) (self : MCPClient) (t : trace)
    (tool_id params : value) : Prop :=
  forall entries,
    answered env self t tool_id params entries ->
    let res := fst (call_tool env tool_id params (self, t)) in
    match assoc "error" entries, assoc "result" entries with
    | Some _, None => exists e, res = Raise e
    | None, Some result => res = Ret result
    | Some _, Some _ | None, None => exists e, res = Raise e
    end.

(** The message of [MCPError] for an [error] object, as the caller sees it
    (the handler of [call_tool] wraps what the body raised). *)
Definition remote_error (err : list (string * value)) : exn :=
  Exn MCPError
    [Lit "Unexpected error: "; Lit "MCP Error ";
     Fmt (default (VStr "unknown") (assoc "code" err)); Lit ": ";
     Fmt (default (VStr "Unknown error") (assoc "message" err))].

End SpecInvoke.

Module FixturesInvoke.
Import Fixtures.

Definition client : MCPClient :=
  {| endpoint := "http://localhost:3001"; timeout := 30; _session := false |}.

(** A server whose answer to every call is the JSON object [entries]. *)
Definition answering (entries : list (string * value)) : Env :=
  serving [("http://localhost:3001/mcp",
            ok_response "" (Ret (VDict entries)))] [] offline.

Definition error_envelope : list (string * value) :=
  [("jsonrpc", VStr "2.0"); ("id", VStr "test_id");
   ("error", VDict [("code", VInt (-32603));
                    ("message", VStr "Tool execution failed")])].

Definition empty_envelope : list (string * value) :=
  [("jsonrpc", VStr "2.0"); ("id", VStr "test_id")].

End FixturesInvoke.

Module FixturesCatalog.
Import Fixtures.

Definition catalog_url : string := "http://example.com/catalog.json".

(** A server that publishes the empty JSON object as its catalog. *)
Definition empty_catalog_world : Env :=
  serving [(catalog_url, ok_response "{}" (Ret (VDict [])))]
          [("{}", VDict [])] offline.

End FixturesCatalog.

Module Frame.

(** A method that leaves the trace as it found it: it does not create a
    session and sends nothing. *)
Definition keeps_trace {X A} (m : M (X * trace) A) : Prop :=
  forall x t, snd (snd (m (x, t))) = t.

End Frame.

Import Frame.

Module SpecTrust.





(** The entries of a catalog document. *)
Definition tools_of (data : value) : outcome (list value) :=
  specs ← get data "tools" (VList []);
  iterate specs.




End SpecTrust.

Module FixturesTrust.
Import Fixtures.

Definition json_url : string := "http://example.com/catalog.json".

Definition well_known_url : string :=
  "http://example.com/.well-known/api-catalog".

Definition spec_url : string := "http://example.com/spec.yaml".

(** A catalog whose only tool points at [spec_url] with a digest that is
    not the digest of what the server holds there. *)
Definition tampered_catalog : value :=
  VDict [("version", VStr "1.0");
         ("tools",
          VList [VDict [("name", VStr "test_tool");
                        ("description", VStr "A test tool");
                        ("spec_url", VStr spec_url);
                        ("spec_hash", VStr "00")]])].

Definition catalog_text : string := "<tampered catalog, as JSON text>".

(** The catalog is published unsigned at both addresses, next to the
    document it refers to. *)
Definition unsigned_world : Env :=
  serving [(json_url, ok_response catalog_text (Ret tampered_catalog));
           (well_known_url, ok_response catalog_text (Ret tampered_catalog));
           (spec_url, ok_response "openapi: 3.0.0" not_json)]
          [(catalog_text, tampered_catalog)] offline.

End FixturesTrust.

Module SpecIntegrity.
Import Spec SpecTrust.


(** What checking one entry adds to the trace. *)
Definition check_events (tool : value) : list event :=
  match tool with
  | VDict d =>
      let u := default VNone (assoc "spec_url" d) in
      let h := default VNone (assoc "spec_hash" d) in
      if truthy u && truthy h then
        SessionCreated ::
        match u with
        | VStr s => [Sent (Request GET s None)]
        | _ => []
        end
      else []
  | _ => []
  end.

(** The entry is an object, and if it has a non-empty [spec_url] and
    [spec_hash], both are strings and the document fetched at trace [t]
    from [spec_url] has the digest [spec_hash]. *)
Definition entry_verified (env : Env) (t : trace) (tool : value) : Prop :=
  exists d,
    tool = VDict d /\
    let u := default VNone (assoc "spec_url" d) in
    let h := default VNone (assoc "spec_hash" d) in
    truthy u && truthy h = true ->
    exists us hs content,
      u = VStr us /\ h = VStr hs /\
      fetched env t us content /\ Sha256.hexdigest content = hs.

(** Every entry is verified, each at the moment its turn comes. *)
Fixpoint all_verified (env : Env) (t : trace) (tools : list value) : Prop :=
  match tools with
  | [] => True
  | tool :: rest =>
      entry_verified env t tool /\
      all_verified env (t ++ check_events tool) rest
  end.

End SpecIntegrity.

Module FixturesIntegrity.
Import FixturesTrust.

(** The catalog object after fetching the tampered catalog with
    verification enabled. *)
Definition fetched_tampered : Catalog * trace :=
  snd (fetch unsigned_world (Catalog_init json_url true, [])).

(** A catalog whose reference is right: the digest of the 14 bytes served
    at [spec_url]. *)
Definition sound_catalog : value :=
  VDict [("tools",
          VList [VDict [("name", VStr "test_tool");
                        ("spec_url", VStr spec_url);
                        ("spec_hash",
                         VStr (Sha256.hexdigest (encode "openapi: 3.0.0")))];
                 VDict [("name", VStr "another_tool")]])].

Definition sound_state : Catalog :=
  {| url := json_url; verify_signatures := true;
     _catalog_data := sound_catalog; _tools := None;
     _verifier := Some {| trusted_keys := ∅ |} |}.

End FixturesIntegrity.

Module SpecKeys.

(** The two well-known addresses of the origin [p] of a catalog. *)
Definition did_url (p : parsed_url) : string :=
  "https://" +:+ netloc p +:+ "/.well-known/did.json".

Definition jwks_url (p : parsed_url) : string :=
  scheme p +:+ "://" +:+ netloc p +:+ "/.well-known/jwks.json".

Definition strategy_failed : exn :=
  Exn OtherException [Interp "strategy failed"].

(** Strategy 1 of the design document: fetch the origin's trust document
    and extract the key; anything but status 200 is a failure. *)
Definition origin_document (env : Env) (catalog_url : string)
    (key_id : option string) : M trace public_key :=
  origin ← lift (urlparse env catalog_url);
  open_session;;
  response ← send env (Request GET (did_url origin) None);
  if (status response =? 200)%Z then
    did_document ← lift (json response);
    lift (_extract_public_key_from_did env did_document key_id)
  else raise strategy_failed.

(** Strategy 2: the caller's trust store, for a key id that is given and
    present. *)
Definition local_trust_store (env : Env) (self : CatalogVerifier)
    (key_id : option string) : M trace public_key :=
  match (if no_key_id key_id then None
         else trusted_keys self !! default "" key_id) with
  | Some key_string => lift (_load_public_key_from_string env key_string)
  | None => raise strategy_failed
  end.

(** The resolver as the design document words it: the three strategies in
    order, the first success wins, every failure falls through to the next
    strategy, and the failure of the last one is the resolver's. *)
Definition resolve (env : Env) (self : CatalogVerifier) (catalog_url : string)
    (key_id : option string) : M trace public_key :=
  try_except (origin_document env catalog_url key_id)
    (fun _ =>
       try_except (local_trust_store env self key_id)
         (fun _ =>
            try_except (_get_key_from_jwks env catalog_url key_id)
              (fun e =>
                 raise (security_error
                   "Could not retrieve public key for verification: " e)))).

(** Two outcomes agree: the same key, or a failure on both sides. *)
Definition same_key (a b : outcome public_key) : Prop :=
  match a, b with
  | Ret k, Ret k' => k = k'
  | Raise _, Raise _ => True
  | _, _ => False
  end.

(** The ordered-fallback rule: the code resolves as [resolve] does. *)
Definition fallback_rule (env : Env) (self : CatalogVerifier)
    (catalog_url : string) (key_id : option string) (t : trace) : Prop :=
  same_key (fst (_get_public_key env self catalog_url key_id t))
           (fst (resolve env self catalog_url key_id t)).

(** What [_get_public_key] makes of the outcome of the strategy that
    decides. *)
Definition key_or_security_error (o : outcome public_key)
  : outcome public_key :=
  match o with
  | Ret k => Ret k
  | Raise e =>
      Raise (security_error
               "Could not retrieve public key for verification: " e)
  end.

(** The entry of the trust store that strategy 2 would use. *)
Definition trusted_entry (self : CatalogVerifier) (key_id : option string)
  : option string :=
  if no_key_id key_id then None else trusted_keys self !! default "" key_id.

End SpecKeys.

Module FixturesKeys.
Import Fixtures.

Definition trusted_key : public_key := RsaPublicKey 3233 17.

Definition pem_text : string := "-----BEGIN PUBLIC KEY-----".

(** The origin serves a trust document without any verification method;
    PEM decoding works for [pem_text]. *)
Definition empty_did_world : Env :=
  let base :=
    serving [("https://example.com/.well-known/did.json",
              ok_response "{}" (Ret (VDict [])))] [] offline in
  {| respond := respond base;
     json_loads := json_loads base;
     urlparse := urlparse base;
     urljoin := urljoin base;
     get_unverified_header := get_unverified_header base;
     jwt_decode := jwt_decode base;
     from_jwk := from_jwk base;
     load_pem_public_key := fun data =>
       if String.eqb (string_of_list_byte data) pem_text then Ret trusted_key
       else load_pem_public_key base data;
     jwt_encode := jwt_encode base |}.

Definition verifier : CatalogVerifier :=
  {| trusted_keys := {[ "key1" := pem_text ]} |}.

(** The same origin without a trust document (status 404). *)
Definition no_did_world : Env :=
  {| respond := respond (serving [] [] offline);
     json_loads := json_loads empty_did_world;
     urlparse := urlparse empty_did_world;
     urljoin := urljoin empty_did_world;
     get_unverified_header := get_unverified_header empty_did_world;
     jwt_decode := jwt_decode empty_did_world;
     from_jwk := from_jwk empty_did_world;
     load_pem_public_key := load_pem_public_key empty_did_world;
     jwt_encode := jwt_encode empty_did_world |}.

End FixturesKeys.

Module FixturesSigner.

(** The catalog of the signing tests: one tool with a [spec_url] and no
    [spec_hash]. *)
Definition sample_catalog : value :=
  VDict [("version", VStr "1.0");
         ("tools",
          VList [VDict [("name", VStr "test_tool");
                        ("description", VStr "A test tool");
                        ("spec_url", VStr "http://example.com/spec.yaml")]])].

(** The same catalog with the placeholder digest of the URL attached. *)
Definition sample_catalog_with_hash : value :=
  VDict [("version", VStr "1.0");
         ("tools",
          VList [VDict [("name", VStr "test_tool");
                        ("description", VStr "A test tool");
                        ("spec_url", VStr "http://example.com/spec.yaml");
                        ("spec_hash",
                         VStr (Sha256.hexdigest
                                 (encode "http://example.com/spec.yaml")))]])].

(** The caller's document: the reference to it, and the heap that holds
    it. *)
Definition callers_document : hval := fst (store sample_catalog ∅).

Definition callers_heap : heap := snd (store sample_catalog ∅).

End FixturesSigner.

Module FixturesCall.
Import Fixtures.

(** A tool entry with an endpoint, as in the test suite. *)
Definition test_tool_spec : value :=
  VDict [("name", VStr "test_tool");
         ("description", VStr "A test tool for unit testing");
         ("x-mcp-tool",
          VDict [("server_url", VStr "http://localhost:3001");
                 ("capabilities", VList [VStr "testing"; VStr "demo"])])].

End FixturesCall.

(** ** Vocabulary for the lookups of the catalog model *)

Module SpecFind.

(** [Catalog.tools]: the property is [find()] without arguments. *)
Definition tools {U : Unicode} : M (Catalog * trace) (list Tool) :=
  find None [].

(** The tool objects [find] works on: the cached list when it is not
    empty, otherwise one tool per entry of the document. *)
Definition built_tools (c : Catalog) : outcome (list Tool) :=
  match _tools c with
  | Some (x :: l) => Ret (x :: l)
  | _ =>
      specs ← get (_catalog_data c) "tools" (VList []);
      items ← iterate specs;
      map_outcome Tool_init items
  end.

(** The catalog after [find] has settled on [tools]. *)
Definition with_tools (c : Catalog) (tools : list Tool) : Catalog :=
  match _tools c with
  | Some (_ :: _) => c
  | _ =>
      {| url := url c; verify_signatures := verify_signatures c;
         _catalog_data := _catalog_data c; _tools := Some tools;
         _verifier := _verifier c |}
  end.

(** The selection [find] makes among [tools]. *)
Definition select {U : Unicode} (capability : option string)
    (filters : list (string * value)) (tools : list Tool)
  : outcome (list Tool) :=
  results ←
    match capability with
    | Some c =>
        if String.eqb c "" then Ret tools
        else filter_outcome (fun tool => contains_str c (capabilities tool))
                            tools
    | None => Ret tools
    end;
  apply_filters results filters.

(** The tool has the capability (and asking raises nothing). *)
Definition has_capability (c : string) (tool : Tool) : bool :=
  match contains_str c (capabilities tool) with
  | Ret b => b
  | Raise _ => false
  end.

(** A catalog entry from which a [Tool] can be built: an object whose
    [x-mcp-tool] member, if any, is an object. *)
Definition entry_ok (v : value) : bool :=
  match v with
  | VDict d =>
      match assoc "x-mcp-tool" d with
      | Some (VDict _) | None => true
      | Some _ => false
      end
  | _ => false
  end.

(** A filter key [find] knows. *)
Definition known_filter (k : string) : bool :=
  String.eqb k "description_contains" || String.eqb k "has_examples".

End SpecFind.

Module FixturesFind.

Definition tool_a_spec : value :=
  VDict [("name", VStr "a");
         ("description", VStr "Alpha Tool");
         ("x-mcp-tool",
          VDict [("capabilities", VList [VStr "x"]);
                 ("examples", VList [VDict [("input", VStr "1")]])])].

Definition tool_b_spec : value :=
  VDict [("name", VStr "b");
         ("description", VStr "beta");
         ("x-mcp-tool", VDict [("capabilities", VList [VStr "y"])])].

Definition tool_a : Tool :=
  {| spec := tool_a_spec; id := VStr "a"; description := VStr "Alpha Tool";
     parameters := VDict [];
     examples := VList [VDict [("input", VStr "1")]];
     server_url := VStr ""; capabilities := VList [VStr "x"] |}.

Definition tool_b : Tool :=
  {| spec := tool_b_spec; id := VStr "b"; description := VStr "beta";
     parameters := VDict []; examples := VList [];
     server_url := VStr ""; capabilities := VList [VStr "y"] |}.

Definition two_tools : value :=
  VDict [("tools", VList [tool_a_spec; tool_b_spec])].

(** The catalog right after the document was fetched, and after the first
    lookup. *)
Definition fetched : Catalog :=
  SpecId.fetched_catalog "http://example.com/catalog.json" two_tools.

Definition searched : Catalog :=
  {| url := "http://example.com/catalog.json"; verify_signatures := false;
     _catalog_data := two_tools; _tools := Some [tool_a; tool_b];
     _verifier := None |}.

(** A tool built from the entry [{"description": null}]. *)
Definition null_description_tool : Tool :=
  {| spec := VDict [("description", VNone)]; id := VStr "";
     description := VNone; parameters := VDict [];
     examples := VList []; server_url := VStr "";
     capabilities := VList [] |}.



(** A catalog fetched from a document with the entries of [tool_a] and
    [{"description": null}]. *)
Definition undescribed : Catalog :=
  SpecId.fetched_catalog "http://example.com/catalog.json"
    (VDict [("tools",
             VList [tool_a_spec; VDict [("description", VNone)]])]).

(** A document with an entry that is not an object. *)
Definition broken : Catalog :=
  SpecId.fetched_catalog "http://example.com/catalog.json"
    (VDict [("tools", VList [tool_a_spec; VStr "oops"])]).

End FixturesFind.

Module FixturesFetch.
Import Fixtures.

Definition list_url : string := "http://example.com/list.json".

(** A server that publishes a JSON array where a catalog is expected. *)
Definition list_world : Env :=
  serving [(list_url, ok_response "[1]" (Ret (VList [VInt 1])))]
          [("[1]", VList [VInt 1])] offline.

(** A catalog that has looked its tools up, and the document a later
    fetch brings: the tool [a] is gone from it. *)
Definition renewed_document : value :=
  VDict [("tools", VList [FixturesFind.tool_b_spec])].

Definition renewing_world : Env :=
  serving [("http://example.com/catalog.json",
            ok_response "<renewed>" (Ret renewed_document))]
          [("<renewed>", renewed_document)] offline.

Definition renewed : Catalog :=
  {| url := "http://example.com/catalog.json"; verify_signatures := false;
     _catalog_data := renewed_document;
     _tools := Some [FixturesFind.tool_a; FixturesFind.tool_b];
     _verifier := None |}.

(** A catalog with verification enabled that has not fetched. *)
Definition unfetched : Catalog :=
  Catalog_init "http://example.com/.well-known/api-catalog" true.

End FixturesFetch.

Module FixturesSigned.
Import Fixtures.

Definition origin : string := "https://example.com/.well-known/api-catalog".

Definition token : string := "<header>.<payload>.<signature>".

Definition jwk : value :=
  VDict [("kty", VStr "RSA"); ("n", VStr "test_modulus"); ("e", VStr "AQAB")].

Definition did_document : value :=
  VDict [("verificationMethod",
          VList [VDict [("id", VStr "did:web:example.com#key1");
                        ("publicKeyJwk", jwk)]])].

Definition signer_key : public_key := RsaPublicKey 3233 17.

(** An origin that publishes a signed catalog, its trust document and the
    document the catalog refers to; the token verifies under the key of the
    trust document and carries [FixturesIntegrity.sound_catalog]. *)
Definition signed_world : Env := {|
  respond := respond
    (serving [(origin, ok_response token not_json);
              ("https://example.com/.well-known/did.json",
               ok_response "" (Ret did_document));
              (FixturesTrust.spec_url, ok_response "openapi: 3.0.0" not_json)]
             [] offline);
  json_loads := json_loads offline;
  urlparse := urlparse offline;
  urljoin := urljoin offline;
  get_unverified_header := fun s =>
    if String.eqb s token
    then Ret {| h_alg := Some (VStr "RS256"); h_kid := Some "key1" |}
    else get_unverified_header offline s;
  jwt_decode := fun s key alg =>
    match key, alg with
    | RsaPublicKey 3233 17, VStr "RS256" =>
        if String.eqb s token then Ret FixturesIntegrity.sound_catalog
        else jwt_decode offline s key alg
    | _, _ => jwt_decode offline s key alg
    end;
  from_jwk := fun v =>
    match v with
    | VDict [("kty", VStr "RSA"); ("n", VStr "test_modulus");
             ("e", VStr "AQAB")] => Ret signer_key
    | _ => from_jwk offline v
    end;
  load_pem_public_key := load_pem_public_key offline;
  jwt_encode := jwt_encode offline
|}.

End FixturesSigned.

(** ** Vocabulary for key selection *)

Module SpecSelect.

(** The JWK of a verification method that [_extract_public_key_from_did]
    would use for [key_id]: the method is an object with a non-empty
    [publicKeyJwk], and, when a key id is given, an [id] that ends with
    it. *)
Definition did_selects (key_id : option string) (method : value)
  : option value :=
  match method with
  | VDict d =>
      let jwk := default VNone (assoc "publicKeyJwk" d) in
      if no_key_id key_id then
        if truthy jwk then Some jwk else None
      else
        match default (VStr "") (assoc "id" d) with
        | VStr s =>
            if endswith s (default "" key_id) && truthy jwk
            then Some jwk else None
        | _ => None
        end
  | _ => None
  end.

(** A verification method the loop passes over without error. *)
Definition did_passes_over (key_id : option string) (method : value)
  : bool :=
  match method with
  | VDict d =>
      let jwk := default VNone (assoc "publicKeyJwk" d) in
      if no_key_id key_id then negb (truthy jwk)
      else
        match default (VStr "") (assoc "id" d) with
        | VStr s => negb (endswith s (default "" key_id) && truthy jwk)
        | _ => false
        end
  | _ => false
  end.

(** A key of a key set that is passed over for the key id [k]: an object
    whose [kid] is not the string [k]. *)
Definition jwks_passes_over (k : string) (key : value) : bool :=
  match key with
  | VDict d => negb (eq_str (default VNone (assoc "kid" d)) k)
  | _ => false
  end.

End SpecSelect.

Module FixturesSelect.

Definition other_method : value :=
  VDict [("id", VStr "did:web:example.com#key2");
         ("publicKeyJwk", VDict [("kty", VStr "RSA"); ("n", VStr "other")])].

Definition bare_method : value :=
  VDict [("id", VStr "did:web:example.com#key1")].

Definition key1_method : value :=
  VDict [("id", VStr "did:web:example.com#key1");
         ("publicKeyJwk", FixturesSigned.jwk)].

Definition methods_document : value :=
  VDict [("verificationMethod",
          VList ([other_method; bare_method] ++ key1_method :: []))].

Definition key_set : value :=
  VDict [("keys",
          VList ([VDict [("kid", VStr "xkey1"); ("kty", VStr "RSA")]] ++
                 VDict [("kid", VStr "key1"); ("kty", VStr "RSA")] :: []))].

(** The origin has no trust document but a key set; the key entry with
    [kid] ["key1"] decodes, the other one does not. *)
Definition jwks_world : Env := {|
  respond := respond
    (Fixtures.serving
       [("https://example.com/.well-known/jwks.json",
         Fixtures.ok_response "" (Ret key_set))] [] Fixtures.offline);
  json_loads := json_loads Fixtures.offline;
  urlparse := urlparse Fixtures.offline;
  urljoin := urljoin Fixtures.offline;
  get_unverified_header := get_unverified_header Fixtures.offline;
  jwt_decode := jwt_decode Fixtures.offline;
  from_jwk := fun v =>
    match get v "kid" VNone with
    | Ret (VStr "key1") => Ret FixturesSigned.signer_key
    | _ => from_jwk Fixtures.offline v
    end;
  load_pem_public_key := load_pem_public_key Fixtures.offline;
  jwt_encode := jwt_encode Fixtures.offline
|}.

End FixturesSelect.

Module FrameState.

(** A computation that leaves its whole state as it found it. *)
Definition keeps_state {S A} (m : M S A) : Prop :=
  forall s, snd (m s) = s.

End FrameState.

Import FrameState.

Module SpecClient.

(** The client once it holds a session. *)
Definition with_session (self : MCPClient) : MCPClient :=
  {| endpoint := endpoint self; timeout := timeout self; _session := true |}.

(** The POST of [list_tools]. *)
Definition list_post (target : string) : request :=
  Request POST target
    (Some {| rpc_id := [Lit "list_tools"]; rpc_method := "tools/list";
             rpc_params := VDict [] |}).

End SpecClient.

Module FixturesClient.

Definition listing_world : Env :=
  FixturesInvoke.answering
    [("jsonrpc", VStr "2.0"); ("id", VStr "list_tools");
     ("result", VDict [("tools", VList [VDict [("name", VStr "tool1")]])])].

End FixturesClient.

Module SpecHeap.

(** [d'] has every entry of [d], with the same value. *)
Definition keeps_entries (d d' : list (string * hval)) : Prop :=
  forall k v, assoc k d = Some v -> assoc k d' = Some v.

(** From [h] to [h'] nothing is lost: every list is the same list, and
    every dict still has all its entries with their values (it may have
    more). *)
Definition heap_grows (h h' : heap) : Prop :=
  forall l,
    match h !! l with
    | Some (HList items) => h' !! l = Some (HList items)
    | Some (HDict d) =>
        exists d', h' !! l = Some (HDict d') /\ keeps_entries d d'
    | None => True
    end.

End SpecHeap.

(** * Properties *)

Import Spec.

Ltac unfold_monad :=
  unfold try_except, mbind, M_bind, mret, M_ret, bind, ret, raise, lift,
    open_session, send, on_net, get_self, set_self, with_object,
    get_state, put_state, outcome_bind, outcome_ret in *.

(** ** Digest utility *)

Lemma length_string_of_list_ascii (l : list ascii) :
  String.length (string_of_list_ascii l) = length l.
Proof. induction l as [|c l IH]; simpl; [reflexivity | now rewrite IH]. Qed.

Lemma length_hex_word (w : Z) : length (Sha256.hex_word w) = 8%nat.
Proof. reflexivity. Qed.

Lemma length_hexdigest (msg : list byte) :
  String.length (Sha256.hexdigest msg) = 64%nat.
Proof.
  unfold Sha256.hexdigest, Sha256.digest_words.
  rewrite length_string_of_list_ascii. reflexivity.
Qed.

Example sha256_hello_world :
  compute_sha256 (encode "Hello, world!") =
  "315f5bdb76d078c43b8ac0064e4a0164612b1fce77c869345bfc94c75894edd3".
Proof. vm_compute. reflexivity. Qed.

Example sha256_two_blocks :
  compute_sha256
    (encode "abcdbcdecdefdefgefghfghighijhijkijkljklmklmnlmnomnopnopq") =
  "248d6a61d20638b8e5c026930c3e6039a33ce45964ff2167f6ecedd419db06c1".
Proof. vm_compute. reflexivity. Qed.

(** C6, as stated, fails: the digest of the empty input is not the
    63-character string of the claim (its last digit is missing). *)
Lemma compute_sha256_empty_is_not_the_stated_vector :
  ~ ((forall x, compute_sha256 x = compute_sha256 x) /\
     compute_sha256 [] =
     "e3b0c44298fc1c149afbf4c8996fb92427ae41e4649b934ca495991b7852b85").
Proof.
  intros [_ H].
  apply (f_equal String.length) in H.
  unfold compute_sha256 in H. rewrite length_hexdigest in H.
  vm_compute in H. discriminate H.
Qed.

(** C6, amended: [compute_sha256] is a function of its input alone, its
    result always has 64 characters, and on the empty input it is the
    64-character SHA-256 test vector ending in [b855]. *)
Theorem compute_sha256_deterministic_and_empty_vector :
  (forall x, compute_sha256 x = compute_sha256 x) /\
  (forall x, String.length (compute_sha256 x) = 64%nat) /\
  compute_sha256 [] =
  "e3b0c44298fc1c149afbf4c8996fb92427ae41e4649b934ca495991b7852b855".
Proof.
  split; [reflexivity | split].
  - intros x. apply length_hexdigest.
  - vm_compute. reflexivity.
Qed.

(** Every digest is well formed: 64 lower-case hexadecimal digits. *)

Lemma hex_digit_ok (n : Z) :
  (0 <= n < 16)%Z -> is_hex_digit (Sha256.hex_digit n) = true.
Proof.
  intros Hn.
  assert (Hk : (Z.to_nat n < 16)%nat) by lia.
  rewrite <- (Z2Nat.id n) by lia.
  generalize dependent (Z.to_nat n). clear Hn. intros k Hk.
  do 16 (destruct k as [| k]; [reflexivity |]). lia.
Qed.

Lemma low_nibble_range (x : Z) : (0 <= Z.land x 0xF < 16)%Z.
Proof.
  change 0xF%Z with (Z.ones 4). rewrite Z.land_ones by lia.
  apply Z.mod_pos_bound. lia.
Qed.

Lemma hex_word_ok (w : Z) : forallb is_hex_digit (Sha256.hex_word w) = true.
Proof.
  unfold Sha256.hex_word. cbn [map forallb].
  rewrite !hex_digit_ok by apply low_nibble_range. reflexivity.
Qed.

Lemma forallb_concat_hex (ws : list Z) :
  forallb is_hex_digit (concat (map Sha256.hex_word ws)) = true.
Proof.
  induction ws as [|w ws IH]; [reflexivity |].
  cbn [map concat]. rewrite forallb_app, hex_word_ok, IH. reflexivity.
Qed.

Lemma hexdigest_well_formed (msg : list byte) :
  well_formed_digest (Sha256.hexdigest msg) = true.
Proof.
  unfold well_formed_digest. rewrite length_hexdigest.
  unfold Sha256.hexdigest.
  rewrite list_ascii_of_string_of_list_ascii, forallb_concat_hex.
  reflexivity.
Qed.

(** From here on the digest is used as a black box. *)
#[global] Opaque Sha256.hexdigest.

Lemma never_matches_malformed (expected : string) (content : list byte) :
  well_formed_digest expected = false ->
  String.eqb (Sha256.hexdigest content) expected = false.
Proof.
  intros Hbad. apply String.eqb_neq. intros Heq.
  pose proof (hexdigest_well_formed content) as Hok.
  rewrite Heq in Hok. congruence.
Qed.

Lemma Ret_inj {A} (a b : A) : Ret a = Ret b -> a = b.
Proof. intros H. congruence. Qed.

Lemma verify_content_integrity_run
    (env : Env) (url expected : string) (t : trace) :
  exists b,
    verify_content_integrity env url expected t =
      (Ret b, t ++ [SessionCreated; Sent (Request GET url None)]) /\
    (b = true <->
     exists content,
       fetched env t url content /\ compute_sha256 content = expected).
Proof.
  replace (t ++ [SessionCreated; Sent (Request GET url None)])
    with ((t ++ [SessionCreated]) ++ [Sent (Request GET url None)])
    by (rewrite <- app_assoc; reflexivity).
  unfold verify_content_integrity, fetched, raise_for_status.
  unfold_monad. cbn.
  destruct (respond env (t ++ [SessionCreated]) (Request GET url None))
    as [r|e0] eqn:Hresp; cbn.
  2:{ exists false. split; [reflexivity | split; [discriminate |]].
      intros (c & (r & Hr & _) & _). discriminate Hr. }
  destruct (400 <=? status r)%Z eqn:Hst; cbn.
  { exists false. split; [reflexivity | split; [discriminate |]].
    intros (c & (r' & Hr & Hlt & _) & _).
    injection Hr as <-. apply Z.leb_le in Hst. lia. }
  destruct (read r) as [content|e1] eqn:Hread; cbn.
  2:{ exists false. split; [reflexivity | split; [discriminate |]].
      intros (c & (r' & Hr & _ & Hrd) & _).
      injection Hr as <-. rewrite Hread in Hrd. discriminate Hrd. }
  eexists. split; [reflexivity | split].
  - intros H. apply String.eqb_eq in H.
    exists content. split; [| exact H].
    exists r. apply Z.leb_gt in Hst. auto.
  - intros (c & (r' & Hr & _ & Hrd) & Hc).
    apply Ret_inj in Hr. subst r'. rewrite Hread in Hrd.
    apply Ret_inj in Hrd. subst c.
    apply String.eqb_eq. exact Hc.
Qed.

(** C7, as stated, fails: a malformed expected digest, the misuse for which
    the claim has the check throw, is answered with [False] like any other
    mismatch; nothing is raised. *)
Lemma verify_content_integrity_returns_false_on_malformed_digest :
  ~ misuse_is_raised FixturesTrust.unsigned_world FixturesTrust.spec_url
      "any_hash" [].
Proof.
  intros H. destruct (H eq_refl) as [e He].
  destruct (verify_content_integrity_run FixturesTrust.unsigned_world
              FixturesTrust.spec_url "any_hash" []) as (b & Hrun & _).
  rewrite Hrun in He. discriminate He.
Qed.

(** C7, amended: [verify_content_integrity] fails closed and never raises,
    whatever the network does and whatever the expected digest is.  It
    answers [True] exactly when the fetch succeeded and the digest of the
    fetched bytes is the expected string; a fetch error, a read error or a
    mismatch gives [False], and so does a malformed expected digest, which
    is not treated as misuse.  It makes one request in a session of its
    own. *)
Theorem verify_content_integrity_fails_closed
    (env : Env) (url expected : string) (t : trace) :
  let res := fst (verify_content_integrity env url expected t) in
  (exists b, res = Ret b) /\
  (res = Ret true <->
   exists content,
     fetched env t url content /\ compute_sha256 content = expected) /\
  (well_formed_digest expected = false -> res = Ret false) /\
  snd (verify_content_integrity env url expected t) =
    t ++ [SessionCreated; Sent (Request GET url None)].
Proof.
  cbn zeta.
  destruct (verify_content_integrity_run env url expected t)
    as (b & Hrun & Hb).
  rewrite Hrun. cbn.
  split; [eauto |]. split; [| split; [| reflexivity]].
  - rewrite <- Hb. split; [intros H; now apply Ret_inj in H | now intros ->].
  - intros Hbad. destruct b; [| reflexivity].
    destruct (proj1 Hb eq_refl) as (content & _ & Hc).
    pose proof (never_matches_malformed expected content Hbad) as Hne.
    unfold compute_sha256 in Hc. rewrite Hc, String.eqb_refl in Hne.
    discriminate Hne.
Qed.

(** ** Invocation: the endpoint guard *)

(** C9: a tool whose endpoint ([server_url]) is the empty string fails
    [call] with [ValueError] (the code's configuration error) and leaves the
    trace as it was: no session is created, no request is framed or sent. *)
Theorem call_with_empty_endpoint_fails_before_network
    (env : Env) (self : Tool) (params : value) (t : trace) :
  server_url self = VStr "" ->
  call env self params t =
  (Raise (Exn ValueError
            [Lit "No server URL configured for tool "; Fmt (id self)]), t).
Proof.
  intros Hurl. unfold call. rewrite Hurl. reflexivity.
Qed.

Lemma call_with_empty_endpoint_witness :
  server_url Fixtures.no_server_tool = VStr "" /\
  call Fixtures.offline Fixtures.no_server_tool
       (VDict [("param", VStr "value")]) [] =
  (Raise (Exn ValueError
            [Lit "No server URL configured for tool ";
             Fmt (VStr "no_server_tool")]), []).
Proof.
  split; [reflexivity |].
  apply (call_with_empty_endpoint_fails_before_network
           Fixtures.offline Fixtures.no_server_tool
           (VDict [("param", VStr "value")]) []).
  reflexivity.
Defined.

Example no_server_tool_is_built_by_init :
  Tool_init (VDict [("name", VStr "no_server_tool")]) =
  Ret Fixtures.no_server_tool.
Proof. reflexivity. Qed.

(** ** Catalog model: tool ids and lookup *)

Import SpecId SpecFind.

Lemma eq_str_true (v : value) (s : string) :
  eq_str v s = true <-> v = VStr s.
Proof.
  destruct v; cbn; try (split; [discriminate | intros H; discriminate H]).
  rewrite String.eqb_eq. split; [intros -> | intros H; injection H]; auto.
Qed.

Lemma Tool_init_id (entries : list (string * value)) (tool : Tool) :
  Tool_init (VDict entries) = Ret tool -> id tool = derived_id entries.
Proof.
  unfold Tool_init, derived_id. cbn.
  destruct (assoc "x-mcp-tool" entries) as [x|]; cbn.
  - destruct x; cbn; try discriminate.
    intros H. apply Ret_inj in H. subst tool. cbn.
    destruct (assoc "name" entries); reflexivity.
  - intros H. apply Ret_inj in H. subst tool. cbn.
    destruct (assoc "name" entries); reflexivity.
Qed.

Lemma find_not_fetched {U : Unicode} (capability : option string)
    (filters : list (string * value)) (c : Catalog) (t : trace) :
  truthy (_catalog_data c) = false ->
  find capability filters (c, t) = (Raise not_fetched, (c, t)).
Proof.
  intros H. unfold find. unfold_monad. cbn. rewrite H. reflexivity.
Qed.

Lemma find_cases {U : Unicode} (capability : option string)
    (filters : list (string * value)) (c : Catalog) (t : trace) :
  truthy (_catalog_data c) = true ->
  find capability filters (c, t) =
  match built_tools c with
  | Ret tools => (select capability filters tools, (with_tools c tools, t))
  | Raise e => (Raise e, (c, t))
  end.
Proof.
  intros H. unfold find, built_tools, with_tools, select, set_tools.
  unfold_monad. cbn. rewrite H. cbn.
  destruct (_tools c) as [[|x l]|] eqn:Ht; cbn; try rewrite Ht; cbn.
  - destruct (get (_catalog_data c) "tools" (VList [])) as [specs|e]; cbn;
      [| reflexivity].
    destruct (iterate specs) as [items|e]; cbn; [| reflexivity].
    destruct (map_outcome Tool_init items) as [tools|e]; cbn;
      [| reflexivity].
    destruct capability as [c0|]; cbn; [| reflexivity].
    destruct (c0 =? "")%string; cbn; [reflexivity |].
    destruct (filter_outcome _ tools); reflexivity.
  - destruct capability as [c0|]; cbn; [| reflexivity].
    destruct (c0 =? "")%string; cbn; [reflexivity |].
    repeat (match goal with
            | |- context [match ?s with _ => _ end] => destruct s; cbn
            end);
      reflexivity.
  - destruct (get (_catalog_data c) "tools" (VList [])) as [specs|e]; cbn;
      [| reflexivity].
    destruct (iterate specs) as [items|e]; cbn; [| reflexivity].
    destruct (map_outcome Tool_init items) as [tools|e]; cbn;
      [| reflexivity].
    destruct capability as [c0|]; cbn; [| reflexivity].
    destruct (c0 =? "")%string; cbn; [reflexivity |].
    destruct (filter_outcome _ tools); reflexivity.
Qed.













(** ** Invocation: the response envelope *)

Import SpecInvoke.

Example client_is_built_by_init :
  McpClient.init (VStr "http://localhost:3001/") = Ret FixturesInvoke.client.
Proof. reflexivity. Qed.

(** C4, as stated, fails: an envelope with neither [result] nor [error] is
    not an error for [call_tool], which returns the empty dict. *)
Lemma call_tool_accepts_envelope_without_result_and_error :
  ~ envelope_rule (FixturesInvoke.answering FixturesInvoke.empty_envelope)
      FixturesInvoke.client [] (VStr "test_tool")
      (VDict [("input", VStr "test")]).
Proof.
  intros H.
  specialize (H FixturesInvoke.empty_envelope).
  cbn in H.
  destruct H as [e He].
  - exists "http://localhost:3001/mcp". eexists.
    split; [reflexivity |]. split; [reflexivity |]. split; reflexivity.
  - vm_compute in He. discriminate He.
Qed.

(** C4, amended: once the server has answered with a JSON object, an
    [error] member that is itself an object makes [call_tool] raise
    [MCPError] with the error's code and message (or their defaults),
    whether or not a [result] member is present too; any other [error]
    member raises [MCPError] as well; without an [error] member the
    [result] member is returned, and the empty dict when there is none.
    In every case the call has sent exactly one request, to the address
    that [urljoin] made of the endpoint. *)
Theorem call_tool_envelope
    (env : Env) (self : MCPClient) (t : trace) (tool_id params : value)
    (entries : list (string * value)) :
  answered env self t tool_id params entries ->
  let res := call_tool env tool_id params (self, t) in
  (exists target,
      urljoin env (endpoint self) "/mcp" = Ret target /\
      snd (snd res) =
        session_trace self t ++ [Sent (call_post target tool_id params)]) /\
  match assoc "error" entries with
  | Some (VDict err) => fst res = Raise (remote_error err)
  | Some _ => raises (fst res) MCPError
  | None => fst res = Ret (default (VDict []) (assoc "result" entries))
  end.
Proof.
  intros (target & r & Hjoin & Hresp & Hst & Hjson).
  unfold call_tool, post, _get_session, wrap_errors, raise_for_status,
    session_trace, call_post in *.
  unfold_monad. cbn.
  destruct (_session self); cbn in *; rewrite Hjoin; cbn; rewrite Hresp; cbn;
    (destruct (400 <=? status r)%Z eqn:Hle;
       [apply Z.leb_le in Hle; lia |]);
    rewrite Hjson; cbn;
    (destruct (assoc "error" entries) as [err|]; cbn;
       [destruct err; cbn |]);
    (split; [exists target; split; reflexivity |]);
    try reflexivity; eexists; reflexivity.
Qed.

Lemma call_tool_envelope_witness :
  answered (FixturesInvoke.answering FixturesInvoke.error_envelope)
    FixturesInvoke.client [] (VStr "test_tool")
    (VDict [("input", VStr "test")]) FixturesInvoke.error_envelope /\
  fst (call_tool (FixturesInvoke.answering FixturesInvoke.error_envelope)
         (VStr "test_tool") (VDict [("input", VStr "test")])
         (FixturesInvoke.client, [])) =
  Raise (Exn MCPError
           [Lit "Unexpected error: "; Lit "MCP Error "; Fmt (VInt (-32603));
            Lit ": "; Fmt (VStr "Tool execution failed")]).
Proof.
  assert (Ha : answered
                 (FixturesInvoke.answering FixturesInvoke.error_envelope)
                 FixturesInvoke.client [] (VStr "test_tool")
                 (VDict [("input", VStr "test")])
                 FixturesInvoke.error_envelope).
  { exists "http://localhost:3001/mcp". eexists.
    split; [reflexivity |]. split; [reflexivity |]. split; reflexivity. }
  split; [exact Ha |].
  exact (proj2 (call_tool_envelope _ _ _ _ _ _ Ha)).
Defined.

(** ** Catalog model: lookups before and after [fetch] *)

(** On a catalog that has never fetched, [find] raises "Catalog not
    fetched" whatever its arguments, and so does [get_tool]; nothing else
    happens. *)
Lemma find_before_fetch {U : Unicode} (url : string) (vs : bool)
    (capability : option string) (filters : list (string * value))
    (tool_id : string) (t : trace) :
  find capability filters (Catalog_init url vs, t) =
    (Raise not_fetched, (Catalog_init url vs, t)) /\
  get_tool tool_id (Catalog_init url vs, t) =
    (Raise not_fetched, (Catalog_init url vs, t)).
Proof. split; reflexivity. Qed.

Lemma keeps_trace_bind {X A B} (m : M (X * trace) A)
    (k : A -> M (X * trace) B) :
  keeps_trace m -> (forall a, keeps_trace (k a)) -> keeps_trace (m ≫= k).
Proof.
  intros Hm Hk x t. unfold mbind, M_bind, bind.
  specialize (Hm x t). destruct (m (x, t)) as [[a|e] [x' t']]; cbn in *.
  - subst t'. apply Hk.
  - exact Hm.
Qed.

Lemma keeps_trace_lift {X A} (o : outcome A) :
  keeps_trace (X := X) (lift o).
Proof. intros x t. reflexivity. Qed.

Lemma keeps_trace_ret {X A} (a : A) : keeps_trace (X := X) (mret a).
Proof. intros x t. reflexivity. Qed.

Lemma keeps_trace_raise {X A} (e : exn) :
  keeps_trace (X := X) (A := A) (raise e).
Proof. intros x t. reflexivity. Qed.

Lemma keeps_trace_get_self {X} : keeps_trace (X := X) get_self.
Proof. intros x t. reflexivity. Qed.

Lemma keeps_trace_set_self {X} (x : X) : keeps_trace (set_self x).
Proof. intros x' t. reflexivity. Qed.

Create HintDb keeps.

#[local] Hint Resolve keeps_trace_lift keeps_trace_ret keeps_trace_raise
  keeps_trace_get_self keeps_trace_set_self : keeps.

(** [find] and [get_tool] never use the network: the trace is the one they
    started from. *)
Lemma find_keeps_trace {U : Unicode} (capability : option string)
    (filters : list (string * value)) :
  keeps_trace (find capability filters).
Proof.
  unfold find, set_tools.
  apply keeps_trace_bind; [auto with keeps | intros self].
  destruct (negb (truthy (_catalog_data self))); [auto with keeps |].
  apply keeps_trace_bind.
  - destruct (_tools self) as [[|x l]|]; auto with keeps;
      repeat (apply keeps_trace_bind; [auto with keeps | intros ?]);
      auto with keeps.
  - intros _.
    apply keeps_trace_bind; [auto with keeps | intros self'].
    apply keeps_trace_bind; [| auto with keeps].
    destruct capability as [c0|]; [| auto with keeps].
    destruct (c0 =? "")%string; auto with keeps.
Qed.

Lemma get_tool_keeps_trace {U : Unicode} (tool_id : string) :
  keeps_trace (get_tool tool_id).
Proof.
  unfold get_tool.
  apply keeps_trace_bind; [apply find_keeps_trace | auto with keeps].
Qed.

(** C8 at the failing input: a catalog whose document is the empty JSON
    object is fetched successfully, and yet [find] and [get_tool] then
    raise "Catalog not fetched. Call fetch() first.": the guard tests the
    truth value of the cached document, and an empty dict is false. *)
Theorem find_after_fetch_of_empty_catalog_raises_not_fetched {U : Unicode} :
  let env := FixturesCatalog.empty_catalog_world in
  let c0 := Catalog_init FixturesCatalog.catalog_url false in
  fst (fetch env (c0, [])) = Ret (VDict []) /\
  fst (find None [] (snd (fetch env (c0, [])))) = Raise not_fetched /\
  fst (get_tool "a" (snd (fetch env (c0, [])))) = Raise not_fetched.
Proof. vm_compute. repeat split. Qed.

(** ** Catalog model: what [fetch] accepts and what [verify] checks *)

Import SpecTrust.






Lemma verify_catalog_ret (env : Env) (self : CatalogVerifier)
    (token url : string) (t : trace) (data : value) (t' : trace) :
  verify_catalog env self token url t = (Ret data, t') ->
  exists header key,
    get_unverified_header env token = Ret header /\
    _get_public_key env self url (h_kid header) t = (Ret key, t') /\
    jwt_decode env token key (default (VStr "RS256") (h_alg header)) =
      Ret data.
Proof.
  unfold verify_catalog. unfold_monad. cbn.
  destruct (get_unverified_header env token) as [header|e]; cbn.
  2:{ destruct (cls e); discriminate. }
  destruct (_get_public_key env self url (h_kid header) t)
    as [[key|e] t1] eqn:Hkey; cbn.
  2:{ destruct (cls e); discriminate. }
  destruct (jwt_decode env token key _) as [doc|e] eqn:Hdec; cbn.
  2:{ destruct (cls e); discriminate. }
  intros H. injection H as <- <-. exists header, key.
  split; [reflexivity | split; [exact Hkey | exact Hdec]].
Qed.

Lemma fetch_signed_ret (env : Env) (url : string) (t : trace) (data : value)
    (c1 : Catalog) (t1 : trace) :
  endswith url ".json" = false ->
  fetch env (Catalog_init url true, t) = (Ret data, (c1, t1)) ->
  exists r token,
    respond env (t ++ [SessionCreated]) (Request GET url None) = Ret r /\
    text r = Ret token /\
    verify_catalog env {| trusted_keys := ∅ |} token url
      (t ++ [SessionCreated; Sent (Request GET url None)]) = (Ret data, t1).
Proof.
  intros Hurl.
  replace (t ++ [SessionCreated; Sent (Request GET url None)])
    with ((t ++ [SessionCreated]) ++ [Sent (Request GET url None)])
    by (rewrite <- app_assoc; reflexivity).
  unfold fetch, Catalog_init, set_catalog_data. unfold_monad. cbn.
  rewrite Hurl.
  destruct (respond env (t ++ [SessionCreated]) (Request GET url None))
    as [r|e]; cbn; [| discriminate].
  destruct (raise_for_status r) as [[]|e]; cbn; [| discriminate].
  destruct (text r) as [token|e] eqn:Htext; cbn; [| discriminate].
  destruct (verify_catalog env _ token url _) as [[doc|e] t2] eqn:Hv; cbn;
    [| discriminate].
  destruct (get doc "tools" (VList [])) as [tools|e]; cbn; [| discriminate].
  destruct (len tools); cbn; [| discriminate].
  intros H. injection H as <- _ <-. exists r, token.
  repeat split; solve [reflexivity | assumption].
Qed.




(** ** Catalog model: content integrity in [verify] *)

Import SpecIntegrity.


Lemma _verify_content_integrity_spec (env : Env) (u h : value) (t : trace) :
  exists ok,
    _verify_content_integrity env u h t =
      (Ret ok,
       t ++ SessionCreated ::
            match u with
            | VStr s => [Sent (Request GET s None)]
            | _ => []
            end) /\
    (ok = true <->
     exists us hs content,
       u = VStr us /\ h = VStr hs /\
       fetched env t us content /\ Sha256.hexdigest content = hs).
Proof.
  unfold _verify_content_integrity, http_get, fetched, raise_for_status.
  unfold_monad. cbn.
  destruct u as [| | |us| |]; cbn;
    try (exists false; split; [reflexivity |];
         split; [discriminate | intros (? & ? & ? & Hu & _); discriminate Hu]).
  replace (t ++ [SessionCreated; Sent (Request GET us None)])
    with ((t ++ [SessionCreated]) ++ [Sent (Request GET us None)])
    by (rewrite <- app_assoc; reflexivity).
  destruct (respond env (t ++ [SessionCreated]) (Request GET us None))
    as [r|e] eqn:Hresp; cbn.
  2:{ exists false. split; [reflexivity |]. split; [discriminate |].
      intros (us' & hs & c & Hu & _ & (r & Hr & _) & _).
      injection Hu as <-. rewrite Hresp in Hr. discriminate Hr. }
  destruct (400 <=? status r)%Z eqn:Hst; cbn.
  { exists false. split; [reflexivity |]. split; [discriminate |].
    intros (us' & hs & c & Hu & _ & (r' & Hr & Hlt & _) & _).
    injection Hu as <-. rewrite Hresp in Hr. apply Ret_inj in Hr. subst r'.
    apply Z.leb_le in Hst. lia. }
  destruct (read r) as [content|e] eqn:Hread; cbn.
  2:{ exists false. split; [reflexivity |]. split; [discriminate |].
      intros (us' & hs & c & Hu & _ & (r' & Hr & _ & Hrd) & _).
      injection Hu as <-. rewrite Hresp in Hr. apply Ret_inj in Hr.
      subst r'. rewrite Hread in Hrd. discriminate Hrd. }
  eexists. split; [reflexivity |]. split.
  - intros Heq. apply eq_str_true in Heq.
    exists us, (Sha256.hexdigest content), content.
    split; [reflexivity |]. split; [exact Heq |]. split; [| reflexivity].
    exists r. apply Z.leb_gt in Hst. auto.
  - intros (us' & hs & c & Hu & Hh & (r' & Hr & _ & Hrd) & Hd).
    injection Hu as <-. rewrite Hresp in Hr. apply Ret_inj in Hr. subst r'.
    rewrite Hread in Hrd. apply Ret_inj in Hrd. subst c.
    apply eq_str_true. congruence.
Qed.

Lemma verify_tools_true (env : Env) (items : list value) :
  forall t,
    fst (verify_tools env items t) = Ret true <-> all_verified env t items.
Proof.
  induction items as [|tool rest IH]; intros t; cbn.
  - split; [trivial | reflexivity].
  - unfold entry_verified.
    destruct tool as [| | | | |d];
      try (cbn; split;
           [discriminate | intros [(d & Hd & _) _]; discriminate Hd]).
    unfold_monad. cbn.
    set (u := default VNone (assoc "spec_url" d)).
    set (h := default VNone (assoc "spec_hash" d)).
    change (match assoc "spec_url" d with Some x => x | None => VNone end)
      with u.
    change (match assoc "spec_hash" d with Some x => x | None => VNone end)
      with h.
    destruct (truthy u && truthy h) eqn:Href.
    + destruct (_verify_content_integrity_spec env u h t)
        as (ok & Heq & Hok).
      rewrite Heq. cbn. destruct ok.
      * rewrite IH. split.
        -- intros Hrest. split; [| exact Hrest].
           exists d. split; [reflexivity |]. intros _. now apply Hok.
        -- intros [_ Hrest]. exact Hrest.
      * cbn. split; [discriminate |].
        intros [(d' & Hd & Hent) _]. injection Hd as <-.
        assert (Hfalse : false = true); [| discriminate Hfalse].
        apply Hok. apply Hent. exact Href.
    + rewrite IH, app_nil_r. split.
      * intros Hrest. split; [| exact Hrest].
        exists d. split; [reflexivity |]. cbn. fold u h. rewrite Href.
        discriminate.
      * intros [_ Hrest]. exact Hrest.
Qed.



Lemma verify_enabled_run (env : Env) (c : Catalog) (t : trace) :
  verify_signatures c = true ->
  is_none (_verifier c) = false ->
  truthy (_catalog_data c) = true ->
  verify env (c, t) =
  match SpecTrust.tools_of (_catalog_data c) with
  | Ret items =>
      (match fst (verify_tools env items t) with
       | Ret b => Ret b
       | Raise _ => Ret false
       end, (c, snd (verify_tools env items t)))
  | Raise _ => (Ret false, (c, t))
  end.
Proof.
  intros Hvs Hver Hdata.
  unfold verify, SpecTrust.tools_of. unfold_monad. cbn.
  rewrite Hvs, Hver, Hdata. cbn.
  destruct (get (_catalog_data c) "tools" (VList [])) as [specs|e]; cbn;
    [| reflexivity].
  destruct (iterate specs) as [items|e]; cbn; [| reflexivity].
  destruct (verify_tools env items t) as [[b|e] t']; reflexivity.
Qed.

Lemma verify_enabled_cases (env : Env) (c : Catalog) (t : trace)
    (items : list value) :
  verify_signatures c = true ->
  is_none (_verifier c) = false ->
  truthy (_catalog_data c) = true ->
  SpecTrust.tools_of (_catalog_data c) = Ret items ->
  verify env (c, t) =
  (match fst (verify_tools env items t) with
   | Ret b => Ret b
   | Raise _ => Ret false
   end, (c, snd (verify_tools env items t))).
Proof.
  intros Hvs Hver Hdata Hitems.
  rewrite verify_enabled_run by assumption. now rewrite Hitems.
Qed.



Example verify_accepts_sound_catalog :
  verify FixturesTrust.unsigned_world (FixturesIntegrity.sound_state, []) =
  (Ret true,
   (FixturesIntegrity.sound_state,
    [SessionCreated; Sent (Request GET FixturesTrust.spec_url None)])).
Proof. vm_compute. reflexivity. Qed.

Example verify_rejects_tampered_catalog :
  fst (verify FixturesTrust.unsigned_world FixturesIntegrity.fetched_tampered)
  = Ret false.
Proof. vm_compute. reflexivity. Qed.

(** ** Key resolution *)

Import SpecKeys.

(** C2, as stated, fails: when the origin's trust document is served but
    holds no suitable key, the code raises instead of falling through to
    the local trust store, which has the key. *)
Lemma get_public_key_does_not_fall_through_on_did_failure :
  ~ fallback_rule FixturesKeys.empty_did_world FixturesKeys.verifier
      "http://example.com/.well-known/api-catalog" (Some "key1") [].
Proof.
  unfold fallback_rule. vm_compute. intros H. exact H.
Qed.

Example empty_did_document_is_final :
  fst (_get_public_key FixturesKeys.empty_did_world FixturesKeys.verifier
         "http://example.com/.well-known/api-catalog" (Some "key1") []) =
  Raise (Exn SecurityError
           [Lit "Could not retrieve public key for verification: ";
            Lit "No suitable public key found in DID document"]) /\
  fst (resolve FixturesKeys.empty_did_world FixturesKeys.verifier
         "http://example.com/.well-known/api-catalog" (Some "key1") []) =
  Ret FixturesKeys.trusted_key.
Proof. vm_compute. split; reflexivity. Qed.

Example missing_did_document_falls_through_to_trust_store :
  fst (_get_public_key FixturesKeys.no_did_world FixturesKeys.verifier
         "http://example.com/.well-known/api-catalog" (Some "key1") []) =
  Ret FixturesKeys.trusted_key.
Proof. vm_compute. reflexivity. Qed.

Lemma get_key_from_jwks_rejected (env : Env) (url : string)
    (key_id : option string) (t : trace) (e : exn) :
  urlparse env url = Raise e ->
  _get_key_from_jwks env url key_id t = (Raise e, t).
Proof.
  intros H. unfold _get_key_from_jwks. unfold_monad. cbn. rewrite H.
  reflexivity.
Qed.

Lemma get_key_from_jwks_outcome (env : Env) (url : string)
    (key_id : option string) (t : trace) (p : parsed_url) :
  urlparse env url = Ret p ->
  ((exists k, fst (_get_key_from_jwks env url key_id t) = Ret k) \/
   raises (fst (_get_key_from_jwks env url key_id t)) SecurityError) /\
  snd (_get_key_from_jwks env url key_id t) =
  t ++ [SessionCreated; Sent (Request GET (jwks_url p) None)].
Proof.
  intros Hparse.
  unfold _get_key_from_jwks, jwks_url, raises, security_error.
  unfold_monad. cbn. rewrite Hparse. cbn.
  replace (t ++ [SessionCreated;
                 Sent (Request GET
                         (scheme p +:+ "://" +:+ netloc p +:+
                          "/.well-known/jwks.json") None)])
    with ((t ++ [SessionCreated]) ++
          [Sent (Request GET
                   (scheme p +:+ "://" +:+ netloc p +:+
                    "/.well-known/jwks.json") None)])
    by (rewrite <- app_assoc; reflexivity).
  destruct (respond env (t ++ [SessionCreated]) _) as [r|e]; cbn;
    [| split; [right; eexists; reflexivity | reflexivity]].
  destruct (raise_for_status r); cbn;
    [| split; [right; eexists; reflexivity | reflexivity]].
  destruct (json r) as [jwks|e]; cbn;
    [| split; [right; eexists; reflexivity | reflexivity]].
  destruct (get jwks "keys" (VList [])) as [keys|e]; cbn;
    [| split; [right; eexists; reflexivity | reflexivity]].
  destruct (iterate keys) as [items|e]; cbn;
    [| split; [right; eexists; reflexivity | reflexivity]].
  destruct (jwks_keys env key_id items) as [k|e]; cbn; split;
    try reflexivity; [left | right]; eexists; reflexivity.
Qed.

Lemma get_public_key_rejected (env : Env) (self : CatalogVerifier)
    (url : string) (key_id : option string) (t : trace) (e : exn) :
  urlparse env url = Raise e ->
  _get_public_key env self url key_id t =
  (key_or_security_error (Raise e), t).
Proof.
  intros H. unfold _get_public_key. unfold_monad. cbn. rewrite H.
  reflexivity.
Qed.

Lemma get_public_key_cases (env : Env) (self : CatalogVerifier)
    (url : string) (key_id : option string) (t : trace) (p : parsed_url) :
  urlparse env url = Ret p ->
  let t1 := (t ++ [SessionCreated]) ++
            [Sent (Request GET (did_url p) None)] in
  _get_public_key env self url key_id t =
  match respond env (t ++ [SessionCreated])
          (Request GET (did_url p) None) with
  | Raise e => (key_or_security_error (Raise e), t1)
  | Ret r =>
      if (status r =? 200)%Z then
        (key_or_security_error
           (doc ← json r; _extract_public_key_from_did env doc key_id), t1)
      else
        match trusted_entry self key_id with
        | Some pem =>
            (key_or_security_error (_load_public_key_from_string env pem), t1)
        | None =>
            (key_or_security_error
               (fst (_get_key_from_jwks env url key_id t1)),
             snd (_get_key_from_jwks env url key_id t1))
        end
  end.
Proof.
  intros Hparse.
  unfold _get_public_key, did_url, trusted_entry, key_or_security_error.
  unfold_monad. cbn. rewrite Hparse. cbn.
  destruct (respond env (t ++ [SessionCreated]) _) as [r|e]; cbn;
    [| reflexivity].
  destruct (status r =? 200)%Z; cbn.
  - destruct (json r) as [doc|e]; cbn; [| reflexivity].
    destruct (_extract_public_key_from_did env doc key_id); reflexivity.
  - destruct (if no_key_id key_id then None
              else trusted_keys self !! default "" key_id) as [pem|]; cbn.
    + destruct (_load_public_key_from_string env pem); reflexivity.
    + destruct (_get_key_from_jwks env url key_id _) as [[k|e] t2];
        reflexivity.
Qed.

Lemma key_or_security_error_outcome (o : outcome public_key) :
  (exists k, key_or_security_error o = Ret k) \/
  raises (key_or_security_error o) SecurityError.
Proof.
  destruct o as [k|e]; [left | right]; eexists; reflexivity.
Qed.

Lemma same_key_refl_guarded (o : outcome public_key) :
  same_key (key_or_security_error o) (key_or_security_error o).
Proof. destruct o; cbn; auto. Qed.

(** C2, amended: [_get_public_key] returns a key or raises [SecurityError],
    never a null key.  A catalog address that [urlparse] rejects ends
    resolution with [SecurityError] before any request.  Otherwise the
    origin's [did.json] is asked for first.  A [did.json] served with status
    200 decides alone (its key, or [SecurityError] when it is malformed or
    has no suitable key), and so does a request that fails: neither falls
    through.  Only another status falls through: to the local trust store
    when the key id is non-empty and present there (its PEM decides alone),
    otherwise to JWKS, whose outcome is the result.  No request is
    repeated: the trace grows by the [did.json] request and at most the JWKS
    request.  Whenever [did.json] is answered with a status other than 200
    and the trust-store entry, if any, decodes, the result is the one of
    the ordered chain of the design document. *)
Theorem get_public_key_resolution
    (env : Env) (self : CatalogVerifier) (url : string)
    (key_id : option string) (t : trace) :
  let res := fst (_get_public_key env self url key_id t) in
  let final := snd (_get_public_key env self url key_id t) in
  ((exists k, res = Ret k) \/ raises res SecurityError) /\
  (forall e,
      urlparse env url = Raise e -> raises res SecurityError /\ final = t) /\
  (forall p,
      urlparse env url = Ret p ->
      let did_request := Request GET (did_url p) None in
      let did := respond env (t ++ [SessionCreated]) did_request in
      let t1 := t ++ [SessionCreated; Sent did_request] in
      (forall e, did = Raise e -> raises res SecurityError /\ final = t1) /\
      (forall r,
          did = Ret r -> status r = 200%Z ->
          res = key_or_security_error
                  (doc ← json r;
                   _extract_public_key_from_did env doc key_id) /\
          final = t1) /\
      (forall r pem,
          did = Ret r -> status r <> 200%Z ->
          trusted_entry self key_id = Some pem ->
          res = key_or_security_error
                  (_load_public_key_from_string env pem) /\
          final = t1) /\
      (forall r,
          did = Ret r -> status r <> 200%Z ->
          trusted_entry self key_id = None ->
          res = key_or_security_error
                  (fst (_get_key_from_jwks env url key_id t1)) /\
          final = t1 ++ [SessionCreated;
                         Sent (Request GET (jwks_url p) None)]) /\
      (forall r,
          did = Ret r -> status r <> 200%Z ->
          (forall pem,
              trusted_entry self key_id = Some pem ->
              is_ret (_load_public_key_from_string env pem) = true) ->
          same_key res (fst (resolve env self url key_id t)))).
Proof.
  cbn zeta.
  destruct (urlparse env url) as [p|e0] eqn:Hparse.
  2:{ rewrite (get_public_key_rejected env self url key_id t e0 Hparse).
      cbn. split; [right; eexists; reflexivity |]. split.
      - intros e He. split; [eexists; reflexivity | reflexivity].
      - intros p Hp. discriminate Hp. }
  split; [| split; [intros e He; discriminate He |]].
  { rewrite (get_public_key_cases env self url key_id t p Hparse).
    cbn zeta.
    destruct (respond env (t ++ [SessionCreated]) _) as [r|e].
    - destruct (status r =? 200)%Z; [apply key_or_security_error_outcome |].
      destruct (trusted_entry self key_id);
        apply key_or_security_error_outcome.
    - apply key_or_security_error_outcome. }
  intros p' Hp'. apply Ret_inj in Hp'. subst p'.
  replace (t ++ [SessionCreated; Sent (Request GET (did_url p) None)])
    with ((t ++ [SessionCreated]) ++
          [Sent (Request GET (did_url p) None)])
    by (rewrite <- app_assoc; reflexivity).
  rewrite (get_public_key_cases env self url key_id t p Hparse). cbn zeta.
  split; [| split; [| split; [| split]]].
  - intros e ->. cbn. split; [eexists; reflexivity | reflexivity].
  - intros r -> Hst. apply Z.eqb_eq in Hst. rewrite Hst.
    split; reflexivity.
  - intros r pem -> Hst Hpem. apply Z.eqb_neq in Hst. rewrite Hst, Hpem.
    split; reflexivity.
  - intros r -> Hst Hnone. apply Z.eqb_neq in Hst. rewrite Hst, Hnone.
    split; [reflexivity |]. cbn.
    apply (get_key_from_jwks_outcome env url key_id _ p Hparse).
  - intros r Hresp Hst Hdec. rewrite Hresp.
    apply Z.eqb_neq in Hst. rewrite Hst.
    unfold resolve, origin_document, local_trust_store.
    unfold_monad. cbn. rewrite Hparse. cbn. rewrite Hresp. cbn.
    rewrite Hst. cbn.
    fold (trusted_entry self key_id).
    destruct (trusted_entry self key_id) as [pem|]; cbn.
    + specialize (Hdec pem eq_refl).
      destruct (_load_public_key_from_string env pem); cbn;
        [reflexivity | discriminate Hdec].
    + destruct (_get_key_from_jwks env url key_id _) as [[k|e] t2]; cbn;
        auto.
Qed.

(** ** Signing and the caller's document *)

Lemma sign_catalog_heap (env : Env) (self : CatalogSigner) (catalog : hval)
    (h : heap) :
  snd (sign_catalog env self catalog h) = snd (_add_content_hashes catalog h).
Proof.
  unfold sign_catalog. unfold_monad.
  destruct (_add_content_hashes catalog h) as [[c|e] h']; cbn;
    [| reflexivity].
  destruct (snapshot h' c); cbn; [| reflexivity].
  destruct (jwt_encode env _ _ _); reflexivity.
Qed.

(** C5 at the failing input: signing the catalog of the test suite writes
    the placeholder digest into the caller's own tool record.  The copy made
    by [_add_content_hashes] is shallow, so the [tools] list and its dicts
    are the caller's.  This holds whatever the signing library does. *)
Theorem sign_catalog_mutates_callers_tool_record
    (env : Env) (self : CatalogSigner) :
  let doc := FixturesSigner.callers_document in
  let before := FixturesSigner.callers_heap in
  let after := snd (sign_catalog env self doc before) in
  snapshot before doc = Some FixturesSigner.sample_catalog /\
  snapshot after doc = Some FixturesSigner.sample_catalog_with_hash /\
  FixturesSigner.sample_catalog <> FixturesSigner.sample_catalog_with_hash.
Proof.
  cbn zeta. rewrite sign_catalog_heap.
  split; [vm_compute; reflexivity |].
  split; [vm_compute; reflexivity |].
  discriminate.
Qed.

(** ** Further checks of the model on the inputs of the test suite *)

(** With an endpoint, [call] does reach the network: one session, one POST
    to [/mcp], and the [result] member comes back. *)
Example call_with_endpoint_posts_once :
  forall tool,
    Tool_init FixturesCall.test_tool_spec = Ret tool ->
    call (FixturesInvoke.answering
            [("jsonrpc", VStr "2.0"); ("id", VStr "test_id");
             ("result", VDict [("status", VStr "ok")])])
         tool (VDict [("input", VStr "test")]) [] =
    (Ret (VDict [("status", VStr "ok")]),
     [SessionCreated;
      Sent (Request POST "http://localhost:3001/mcp"
              (Some (call_request_data (VStr "test_tool")
                       (VDict [("input", VStr "test")]))))]).
Proof.
  intros tool H. vm_compute in H. apply Ret_inj in H. subst tool.
  vm_compute. reflexivity.
Qed.

(** [find] by capability on the catalog of the design document's example:
    exactly the tool that has the capability. *)
Example find_by_capability {U : Unicode} :
  fst (find (Some "x") []
         (SpecId.fetched_catalog "http://example.com/catalog.json"
            (VDict [("tools",
                     VList [VDict [("name", VStr "a");
                                   ("x-mcp-tool",
                                    VDict [("capabilities",
                                            VList [VStr "x"])])];
                            VDict [("name", VStr "b");
                                   ("x-mcp-tool",
                                    VDict [("capabilities",
                                            VList [VStr "y"])])]])]),
          [])) =
  (tool ← Tool_init (VDict [("name", VStr "a");
                            ("x-mcp-tool",
                             VDict [("capabilities", VList [VStr "x"])])]);
   Ret [tool]).
Proof. vm_compute. reflexivity. Qed.

(** The shallow copy does protect the top level of the caller's document:
    its own dict is the same object with the same entries after signing. *)
Example sign_catalog_keeps_callers_top_level (env : Env)
    (self : CatalogSigner) :
  match FixturesSigner.callers_document with
  | HRef l =>
      snd (sign_catalog env self FixturesSigner.callers_document
             FixturesSigner.callers_heap) !! l =
      FixturesSigner.callers_heap !! l
  | _ => False
  end.
Proof. rewrite sign_catalog_heap. vm_compute. reflexivity. Qed.

(** * Further properties of the code *)

(** ** [Catalog.find] *)

Import SpecFind.

Lemma with_tools_cached (c : Catalog) (tools : list Tool) :
  built_tools c = Ret tools -> _tools (with_tools c tools) = Some tools.
Proof.
  unfold built_tools, with_tools.
  destruct (_tools c) as [[|x l]|] eqn:Ht; cbn; try reflexivity.
  intros H. apply Ret_inj in H. subst tools. exact Ht.
Qed.

Lemma with_tools_data (c : Catalog) (tools : list Tool) :
  _catalog_data (with_tools c tools) = _catalog_data c.
Proof. unfold with_tools. destruct (_tools c) as [[|x l]|]; reflexivity. Qed.

Lemma filter_outcome_ret {A} (p : A -> outcome bool) (xs ys : list A) :
  filter_outcome p xs = Ret ys ->
  ys = List.filter
         (fun x => match p x with Ret b => b | Raise _ => false end) xs /\
  Forall (fun x => is_ret (p x) = true) xs.
Proof.
  revert ys. induction xs as [|x xs IH]; intros ys; cbn.
  - intros H. apply Ret_inj in H. subst. split; [reflexivity | constructor].
  - unfold mbind, outcome_bind. destruct (p x) as [b|e] eqn:Hp;
      [| discriminate].
    destruct (filter_outcome p xs) as [zs|e]; [| discriminate].
    intros H. apply Ret_inj in H. destruct (IH zs eq_refl) as [-> Hall].
    split; [| constructor; [rewrite Hp; reflexivity | exact Hall]].
    subst ys. destruct b; reflexivity.
Qed.

Lemma sublist_List_filter {A} (f : A -> bool) (xs : list A) :
  sublist (List.filter f xs) xs.
Proof.
  induction xs as [|x xs IH]; cbn; [constructor |].
  destruct (f x); [apply sublist_skip | apply sublist_cons]; exact IH.
Qed.

Lemma apply_filter_sublist {U : Unicode} (results results' : list Tool)
    (kv : string * value) :
  apply_filter results kv = Ret results' -> sublist results' results.
Proof.
  unfold apply_filter.
  destruct (fst kv =? "description_contains")%string.
  - intros H. apply filter_outcome_ret in H as [-> _].
    apply sublist_List_filter.
  - destruct (fst kv =? "has_examples")%string; intros H;
      apply Ret_inj in H; subst results'.
    + apply sublist_List_filter.
    + reflexivity.
Qed.

Lemma apply_filters_sublist {U : Unicode}
    (filters : list (string * value)) :
  forall results results',
    apply_filters results filters = Ret results' ->
    sublist results' results.
Proof.
  induction filters as [|kv rest IH]; intros results results'; cbn.
  - intros H. apply Ret_inj in H. now subst.
  - unfold mbind, outcome_bind.
    destruct (apply_filter results kv) as [mid|e] eqn:Hkv; [| discriminate].
    intros H. transitivity mid; [now apply IH |].
    now apply apply_filter_sublist in Hkv.
Qed.

Lemma select_sublist {U : Unicode} (capability : option string)
    (filters : list (string * value)) (tools results : list Tool) :
  select capability filters tools = Ret results -> sublist results tools.
Proof.
  unfold select, mbind, outcome_bind.
  destruct capability as [c0|].
  - destruct (c0 =? "")%string; [apply apply_filters_sublist |].
    destruct (filter_outcome _ tools) as [mid|e] eqn:Hcap; [| discriminate].
    intros H. apply apply_filters_sublist in H.
    apply filter_outcome_ret in Hcap as [-> _].
    transitivity (List.filter
                    (fun x => match contains_str c0 (capabilities x) with
                              | Ret b => b
                              | Raise _ => false
                              end) tools);
      [exact H | apply sublist_List_filter].
  - apply apply_filters_sublist.
Qed.

(** X1: whatever the capability and the filters, the tools [find] returns
    are a sub-sequence of the tool list the catalog then holds: catalog
    order is kept, nothing is invented or repeated, and the network is not
    used. *)
Theorem find_returns_tools_in_catalog_order {U : Unicode}
    (capability : option string) (filters : list (string * value))
    (c : Catalog) (t : trace) (results : list Tool) (c' : Catalog)
    (t' : trace) :
  find capability filters (c, t) = (Ret results, (c', t')) ->
  exists tools,
    _tools c' = Some tools /\ sublist results tools /\ t' = t.
Proof.
  intros H.
  destruct (truthy (_catalog_data c)) eqn:Hdata.
  - rewrite (find_cases _ _ _ _ Hdata) in H.
    destruct (built_tools c) as [tools|e] eqn:Hb; [| discriminate H].
    injection H as Hsel <- <-.
    exists tools. split; [now apply with_tools_cached |].
    split; [now apply (select_sublist capability filters) | reflexivity].
  - rewrite (find_not_fetched _ _ _ _ Hdata) in H. discriminate H.
Qed.

Lemma built_tools_with_tools (c : Catalog) (tools : list Tool) :
  built_tools c = Ret tools ->
  built_tools (with_tools c tools) = Ret tools /\
  with_tools (with_tools c tools) tools = with_tools c tools.
Proof.
  unfold built_tools, with_tools.
  destruct (_tools c) as [[|x l]|] eqn:Ht; cbn.
  - intros H. destruct tools as [|y k]; cbn; [split; [exact H | reflexivity] |].
    split; reflexivity.
  - rewrite Ht. intros H. split; [exact H | reflexivity].
  - intros H. destruct tools as [|y k]; cbn; [split; [exact H | reflexivity] |].
    split; reflexivity.
Qed.

(** X2: [find] caches the tool objects it builds.  After a call that
    returned, the same call on the resulting catalog returns the same tools
    and changes nothing more. *)
Theorem find_again_returns_the_same {U : Unicode}
    (capability : option string) (filters : list (string * value))
    (c : Catalog) (t : trace) (results : list Tool) (c' : Catalog)
    (t' : trace) :
  find capability filters (c, t) = (Ret results, (c', t')) ->
  find capability filters (c', t') = (Ret results, (c', t')).
Proof.
  intros H.
  destruct (truthy (_catalog_data c)) eqn:Hdata.
  - rewrite (find_cases _ _ _ _ Hdata) in H.
    destruct (built_tools c) as [tools|e] eqn:Hb; [| discriminate H].
    injection H as Hsel <- <-.
    destruct (built_tools_with_tools c tools Hb) as [Hb' Hw].
    rewrite find_cases by (rewrite with_tools_data; exact Hdata).
    rewrite Hb', Hw, Hsel. reflexivity.
  - rewrite (find_not_fetched _ _ _ _ Hdata) in H. discriminate H.
Qed.

Lemma apply_filters_skip_unknown {U : Unicode} (k : string) (v : value)
    (before after : list (string * value)) :
  known_filter k = false ->
  forall results,
    apply_filters results (before ++ (k, v) :: after) =
    apply_filters results (before ++ after).
Proof.
  intros Hk. unfold known_filter in Hk. apply orb_false_iff in Hk as [H1 H2].
  induction before as [|kv rest IH]; intros results; cbn.
  - unfold apply_filter. cbn. rewrite H1, H2. reflexivity.
  - unfold mbind, outcome_bind.
    destruct (apply_filter results kv); [apply IH | reflexivity].
Qed.

(** X3: a filter key that [find] does not know is ignored, wherever it
    stands among the filters: the result and the catalog are those of the
    call without it (no error is raised for it). *)
Theorem find_ignores_unknown_filters {U : Unicode}
    (capability : option string) (k : string) (v : value)
    (before after : list (string * value)) (c : Catalog) (t : trace) :
  known_filter k = false ->
  find capability (before ++ (k, v) :: after) (c, t) =
  find capability (before ++ after) (c, t).
Proof.
  intros Hk.
  destruct (truthy (_catalog_data c)) eqn:Hdata.
  - rewrite !find_cases by exact Hdata.
    destruct (built_tools c) as [tools|e]; [| reflexivity].
    f_equal. unfold select, mbind, outcome_bind.
    destruct (match capability with
              | Some c0 =>
                  if (c0 =? "")%string then Ret tools
                  else filter_outcome
                         (fun tool => contains_str c0 (capabilities tool))
                         tools
              | None => Ret tools
              end); [| reflexivity].
    now apply apply_filters_skip_unknown.
  - rewrite !find_not_fetched by exact Hdata. reflexivity.
Qed.

Lemma find_ignores_unknown_filters_witness :
  known_filter "sort_by" = false /\
  find (U := Fixtures.ascii_text) (Some "x")
       ([] ++ ("sort_by", VStr "name") :: []) (FixturesFind.fetched, []) =
  find (U := Fixtures.ascii_text) (Some "x") ([] ++ [])
       (FixturesFind.fetched, []).
Proof.
  split; [reflexivity |].
  apply (find_ignores_unknown_filters (U := Fixtures.ascii_text) (Some "x")
           "sort_by" (VStr "name") [] [] FixturesFind.fetched []).
  reflexivity.
Defined.

Lemma find_returns_tools_in_catalog_order_witness :
  find (U := Fixtures.ascii_text) (Some "x") [] (FixturesFind.fetched, []) =
    (Ret [FixturesFind.tool_a], (FixturesFind.searched, [])) /\
  exists tools,
    _tools FixturesFind.searched = Some tools /\
    sublist [FixturesFind.tool_a] tools /\ @nil event = [].
Proof.
  split; [reflexivity |].
  apply (find_returns_tools_in_catalog_order (U := Fixtures.ascii_text)
           (Some "x") []
           FixturesFind.fetched [] [FixturesFind.tool_a]
           FixturesFind.searched []).
  reflexivity.
Defined.

Lemma find_again_returns_the_same_witness :
  find (U := Fixtures.ascii_text) (Some "x") [] (FixturesFind.fetched, []) =
    (Ret [FixturesFind.tool_a], (FixturesFind.searched, [])) /\
  find (U := Fixtures.ascii_text) (Some "x") [] (FixturesFind.searched, []) =
    (Ret [FixturesFind.tool_a], (FixturesFind.searched, [])).
Proof.
  split; [reflexivity |].
  apply (find_again_returns_the_same (U := Fixtures.ascii_text)
           (Some "x") []
           FixturesFind.fetched [] [FixturesFind.tool_a]
           FixturesFind.searched []).
  reflexivity.
Defined.

(** X4: with a non-empty capability and no other filter, [find] returns
    exactly the tools of the catalog that have the capability, in catalog
    order; an empty capability string selects like no capability at all. *)
Theorem find_by_capability_selects_exactly {U : Unicode}
    (capability : string) (c : Catalog) (t : trace) (results : list Tool)
    (c' : Catalog) (t' : trace) :
  find (Some capability) [] (c, t) = (Ret results, (c', t')) ->
  exists tools,
    _tools c' = Some tools /\
    results = (if String.eqb capability "" then tools
               else List.filter (has_capability capability) tools) /\
    find (Some "") [] (c, t) = find None [] (c, t).
Proof.
  intros H.
  destruct (truthy (_catalog_data c)) eqn:Hdata.
  - rewrite !find_cases by exact Hdata.
    rewrite (find_cases _ _ _ _ Hdata) in H.
    destruct (built_tools c) as [tools|e] eqn:Hb; [| discriminate H].
    injection H as Hsel <- <-.
    exists tools. split; [now apply with_tools_cached |].
    split; [| reflexivity].
    unfold select, mbind, outcome_bind in Hsel. cbn in Hsel.
    destruct (capability =? "")%string.
    + apply Ret_inj in Hsel. congruence.
    + destruct (filter_outcome _ tools) as [mid|e] eqn:Hcap;
        [| discriminate Hsel].
      apply Ret_inj in Hsel. subst mid.
      now apply filter_outcome_ret in Hcap as [-> _].
  - rewrite (find_not_fetched _ _ _ _ Hdata) in H. discriminate H.
Qed.

Lemma find_by_capability_selects_exactly_witness :
  find (U := Fixtures.ascii_text) (Some "x") [] (FixturesFind.fetched, []) =
    (Ret [FixturesFind.tool_a], (FixturesFind.searched, [])) /\
  exists tools,
    _tools FixturesFind.searched = Some tools /\
    [FixturesFind.tool_a] =
      (if String.eqb "x" "" then tools
       else List.filter (has_capability "x") tools) /\
    find (U := Fixtures.ascii_text) (Some "") [] (FixturesFind.fetched, []) =
    find (U := Fixtures.ascii_text) None [] (FixturesFind.fetched, []).
Proof.
  split; [reflexivity |].
  apply (find_by_capability_selects_exactly (U := Fixtures.ascii_text) "x"
           FixturesFind.fetched [] [FixturesFind.tool_a]
           FixturesFind.searched []).
  reflexivity.
Defined.

Lemma List_filter_none {A} (f : A -> bool) (xs : list A) :
  (forall x, f x = false) -> List.filter f xs = [].
Proof.
  intros Hf. induction xs as [|x xs IH]; cbn; [reflexivity |].
  now rewrite Hf.
Qed.

(** X5: the [has_examples] filter compares [bool(tool.examples)] with the
    given value.  With [True] or [False], [find] returns exactly the tools
    that have, or have no, examples.  With a value that equals neither
    [True] nor [False] (a string, [None], a number other than 0 and 1) it
    silently returns no tool at all. *)
Theorem find_has_examples {U : Unicode} (v : value) (c : Catalog) (t : trace)
    (tools : list Tool) :
  truthy (_catalog_data c) = true ->
  built_tools c = Ret tools ->
  (forall b,
      v = VBool b ->
      fst (find None [("has_examples", v)] (c, t)) =
      Ret (List.filter (fun tool => Bool.eqb (truthy (examples tool)) b)
                       tools)) /\
  (eq_bool true v = false -> eq_bool false v = false ->
   fst (find None [("has_examples", v)] (c, t)) = Ret []).
Proof.
  intros Hdata Hb. rewrite find_cases by exact Hdata. rewrite Hb. cbn.
  split.
  - intros b ->. reflexivity.
  - intros Ht Hf. f_equal. apply List_filter_none. intros x.
    destruct (truthy (examples x)); assumption.
Qed.

Lemma find_has_examples_witness :
  truthy (_catalog_data FixturesFind.fetched) = true /\
  built_tools FixturesFind.fetched =
    Ret [FixturesFind.tool_a; FixturesFind.tool_b] /\
  fst (find (U := Fixtures.ascii_text) None [("has_examples", VStr "yes")]
         (FixturesFind.fetched, []))
  = Ret [].
Proof.
  split; [reflexivity |]. split; [reflexivity |].
  apply (proj2 (find_has_examples (U := Fixtures.ascii_text) (VStr "yes")
                  FixturesFind.fetched []
                  [FixturesFind.tool_a; FixturesFind.tool_b]
                  eq_refl eq_refl));
    reflexivity.
Defined.

Lemma filter_outcome_ext {A} (p q : A -> outcome bool) (xs : list A) :
  (forall x, p x = q x) -> filter_outcome p xs = filter_outcome q xs.
Proof.
  intros Hpq. induction xs as [|x xs IH]; cbn; [reflexivity |].
  now rewrite Hpq, IH.
Qed.


Lemma map_outcome_raises {A B} (f : A -> outcome B) (e : exn)
    (xs : list A) (x0 : A) :
  (forall x e', f x = Raise e' -> e' = e) ->
  In x0 xs -> f x0 = Raise e ->
  map_outcome f xs = Raise e.
Proof.
  intros Hall. induction xs as [|x xs IH]; cbn; [intros [] |].
  intros [-> | Hin] Hx0; unfold mbind, outcome_bind.
  - rewrite Hx0. reflexivity.
  - destruct (f x) as [b|e'] eqn:Hp.
    + now rewrite (IH Hin Hx0).
    + now rewrite (Hall _ _ Hp).
Qed.


Lemma Tool_init_ok (v : value) :
  is_ret (Tool_init v) = entry_ok v /\
  (forall e, Tool_init v = Raise e -> e = no_attribute "get").
Proof.
  unfold Tool_init, entry_ok.
  destruct v as [| | | | |d]; cbn; try (split; [reflexivity | congruence]).
  destruct (assoc "x-mcp-tool" d) as [x|]; cbn;
    [| split; [reflexivity | congruence]].
  destruct x; cbn; split; try reflexivity; congruence.
Qed.

(** X7: a [Tool] can be built from a catalog entry exactly when the entry
    is an object whose [x-mcp-tool] member, if present, is an object; and a
    single entry that is not makes [find] fail with [AttributeError] for the
    whole catalog, whatever is asked, without caching anything. *)
Theorem find_fails_on_malformed_entry {U : Unicode}
    (capability : option string) (filters : list (string * value))
    (c : Catalog) (t : trace) (specs : value) (items : list value)
    (item : value) :
  truthy (_catalog_data c) = true ->
  _tools c = None ->
  get (_catalog_data c) "tools" (VList []) = Ret specs ->
  iterate specs = Ret items ->
  In item items ->
  entry_ok item = false ->
  (forall v, is_ret (Tool_init v) = entry_ok v) /\
  find capability filters (c, t) = (Raise (no_attribute "get"), (c, t)).
Proof.
  intros Hdata Hnone Hget Hiter Hin Hbad.
  split; [intros v; apply Tool_init_ok |].
  rewrite find_cases by exact Hdata.
  unfold built_tools. rewrite Hnone, Hget. cbn. rewrite Hiter. cbn.
  rewrite (map_outcome_raises Tool_init (no_attribute "get") items item).
  - reflexivity.
  - intros x e'. apply Tool_init_ok.
  - exact Hin.
  - destruct (Tool_init_ok item) as [Hok He].
    rewrite Hbad in Hok.
    destruct (Tool_init item) as [tool|e]; [discriminate Hok |].
    now rewrite (He e eq_refl).
Qed.

Lemma find_fails_on_malformed_entry_witness :
  truthy (_catalog_data FixturesFind.broken) = true /\
  find (U := Fixtures.ascii_text) None [] (FixturesFind.broken, []) =
  (Raise (no_attribute "get"), (FixturesFind.broken, [])).
Proof.
  split; [reflexivity |].
  apply (proj2 (find_fails_on_malformed_entry (U := Fixtures.ascii_text)
                  None []
                  FixturesFind.broken []
                  (VList [FixturesFind.tool_a_spec; VStr "oops"])
                  [FixturesFind.tool_a_spec; VStr "oops"] (VStr "oops")
                  eq_refl eq_refl eq_refl eq_refl
                  (or_intror (or_introl eq_refl)) eq_refl)).
Defined.


(** A capability that leaves the tool out spares the search. *)
Example description_filter_spared_by_capability :
  fst (find (U := Fixtures.ascii_text) (Some "x")
         [("description_contains", VStr "alpha")]
         (FixturesFind.undescribed, [])) =
  Ret [FixturesFind.tool_a].
Proof. reflexivity. Qed.

(** ** [Catalog.fetch] and [Catalog.verify] *)

Ltac fetch_tail :=
  cbn;
  match goal with
  | |- context [get ?a "tools" _] =>
      destruct a as [| | | | |?d]; cbn; try discriminate
  end;
  match goal with
  | |- context [len ?x] => destruct (len x); cbn; [| discriminate]
  end;
  let H := fresh "H" in
  intros H; injection H as <- <- <-; split;
    [eauto | try reflexivity; f_equal; congruence].

Lemma fetch_shape (env : Env) (c : Catalog) (t : trace) (data : value)
    (c' : Catalog) (t' : trace) :
  fetch env (c, t) = (Ret data, (c', t')) ->
  (exists d, data = VDict d) /\
  c' = {| url := url c; verify_signatures := verify_signatures c;
          _catalog_data := data; _tools := _tools c;
          _verifier := _verifier c |}.
Proof.
  unfold fetch, set_catalog_data. unfold_monad. cbn.
  destruct (respond env (t ++ [SessionCreated]) (Request GET (url c) None))
    as [r|e]; cbn; [| discriminate].
  destruct (raise_for_status r) as [[]|e]; cbn; [| discriminate].
  destruct (text r) as [content|e]; cbn; [| discriminate].
  destruct (endswith (url c) ".json").
  - destruct (json_loads env content) as [doc|e]; cbn; [| discriminate].
    fetch_tail.
  - destruct (_verifier c) as [v|] eqn:Hv; cbn; try rewrite Hv.
    + destruct (verify_catalog env v content (url c) _) as [[doc|e] t1]; cbn;
        [| discriminate].
      fetch_tail.
    + destruct (json_loads env content) as [doc|e]; cbn; [| discriminate].
      fetch_tail.
Qed.
(** X8: a [fetch] that returns has stored the document it returns, and
    that document is a JSON object; the address, the verification setting
    and the verifier are untouched, and so is the list of tool objects built
    by earlier lookups, which a new fetch does not reset. *)
Theorem fetch_stores_the_object_it_returns
    (env : Env) (c : Catalog) (t : trace) (data : value) (c' : Catalog)
    (t' : trace) :
  fetch env (c, t) = (Ret data, (c', t')) ->
  (exists d, data = VDict d) /\
  _catalog_data c' = data /\
  url c' = url c /\
  verify_signatures c' = verify_signatures c /\
  _verifier c' = _verifier c /\
  _tools c' = _tools c.
Proof.
  intros H. apply fetch_shape in H as [Hd ->]. cbn. auto 10.
Qed.

Lemma fetch_stores_the_object_it_returns_witness :
  fetch FixturesFetch.renewing_world (FixturesFind.searched, []) =
    (Ret FixturesFetch.renewed_document,
     (FixturesFetch.renewed,
      [SessionCreated;
       Sent (Request GET "http://example.com/catalog.json" None)])) /\
  _tools FixturesFetch.renewed = _tools FixturesFind.searched.
Proof.
  assert (H : fetch FixturesFetch.renewing_world (FixturesFind.searched, [])
              = (Ret FixturesFetch.renewed_document,
                 (FixturesFetch.renewed,
                  [SessionCreated;
                   Sent (Request GET "http://example.com/catalog.json"
                           None)]))) by reflexivity.
  split; [exact H |].
  exact (proj2 (proj2 (proj2 (proj2 (proj2
    (fetch_stores_the_object_it_returns _ _ _ _ _ _ H)))))).
Defined.

(** X9: tool objects survive a new fetch.  Once a lookup has built a
    non-empty list of tools, a later successful [fetch] of a non-empty
    document does not change what [find] returns: the tools of the earlier
    document are served. *)
Theorem find_after_refetch_serves_earlier_tools {U : Unicode}
    (env : Env) (c : Catalog) (t : trace) (x : Tool) (l : list Tool)
    (data : value) (c' : Catalog) (t' : trace) :
  _tools c = Some (x :: l) ->
  fetch env (c, t) = (Ret data, (c', t')) ->
  truthy data = true ->
  find None [] (c', t') = (Ret (x :: l), (c', t')).
Proof.
  intros Htools Hfetch Hdata.
  apply fetch_shape in Hfetch as [_ ->].
  rewrite find_cases by exact Hdata.
  unfold built_tools, with_tools. cbn. rewrite Htools. reflexivity.
Qed.

Lemma find_after_refetch_serves_earlier_tools_witness :
  _tools FixturesFind.searched =
    Some [FixturesFind.tool_a; FixturesFind.tool_b] /\
  truthy FixturesFetch.renewed_document = true /\
  fst (find (U := Fixtures.ascii_text) None []
         (snd (fetch FixturesFetch.renewing_world
                 (FixturesFind.searched, [])))) =
  Ret [FixturesFind.tool_a; FixturesFind.tool_b].
Proof.
  split; [reflexivity |]. split; [reflexivity |].
  exact (f_equal fst
           (find_after_refetch_serves_earlier_tools
              (U := Fixtures.ascii_text) FixturesFetch.renewing_world
              FixturesFind.searched []
              FixturesFind.tool_a [FixturesFind.tool_b]
              FixturesFetch.renewed_document FixturesFetch.renewed _
              eq_refl eq_refl eq_refl)).
Defined.

(** X10: [fetch] is not all-or-nothing.  When the text parsed as plain
    JSON is not an object, [fetch] raises [AttributeError], but only after
    having stored the parsed value as the catalog's document. *)
Theorem fetch_failure_keeps_rejected_document
    (env : Env) (c : Catalog) (t : trace) (r : response)
    (content : string) (data : value) :
  respond env (t ++ [SessionCreated]) (Request GET (url c) None) = Ret r ->
  (status r < 400)%Z ->
  text r = Ret content ->
  endswith (url c) ".json" = true \/ _verifier c = None ->
  json_loads env content = Ret data ->
  (forall d, data <> VDict d) ->
  fetch env (c, t) =
  (Raise (no_attribute "get"),
   ({| url := url c; verify_signatures := verify_signatures c;
       _catalog_data := data; _tools := _tools c;
       _verifier := _verifier c |},
    t ++ [SessionCreated; Sent (Request GET (url c) None)])).
Proof.
  intros Hresp Hst Htext Hplain Hjson Hnot.
  replace (t ++ [SessionCreated; Sent (Request GET (url c) None)])
    with ((t ++ [SessionCreated]) ++ [Sent (Request GET (url c) None)])
    by (rewrite <- app_assoc; reflexivity).
  unfold fetch, set_catalog_data, raise_for_status. unfold_monad. cbn.
  rewrite Hresp. cbn.
  destruct (400 <=? status r)%Z eqn:Hle; [apply Z.leb_le in Hle; lia |].
  cbn. rewrite Htext. cbn.
  assert (Hget : get data "tools" (VList []) = Raise (no_attribute "get")).
  { destruct data; try reflexivity. now destruct (Hnot entries). }
  destruct Hplain as [Hurl | Hver].
  - rewrite Hurl, Hjson. cbn. rewrite Hget. reflexivity.
  - rewrite Hver, Hjson. destruct (endswith (url c) ".json"); cbn;
      rewrite Hget; cbn; rewrite ?Hver; reflexivity.
Qed.

Lemma fetch_failure_keeps_rejected_document_witness :
  _catalog_data
    (fst (snd (fetch FixturesFetch.list_world
                 (Catalog_init FixturesFetch.list_url false, [])))) =
  VList [VInt 1] /\
  fst (fetch FixturesFetch.list_world
         (Catalog_init FixturesFetch.list_url false, [])) =
  Raise (no_attribute "get").
Proof.
  assert (H := fetch_failure_keeps_rejected_document
                 FixturesFetch.list_world
                 (Catalog_init FixturesFetch.list_url false) []
                 (Fixtures.ok_response "[1]" (Ret (VList [VInt 1])))
                 "[1]" (VList [VInt 1])
                 eq_refl eq_refl eq_refl (or_introl eq_refl) eq_refl
                 (fun d (E : VList [VInt 1] = VDict d) =>
                    eq_ind (VList [VInt 1])
                      (fun v => match v with VList _ => True | _ => False end)
                      I _ E)).
  split; [exact (f_equal (fun p => _catalog_data (fst (snd p))) H)
         | exact (f_equal fst H)].
Defined.

(** X11: [verify] can raise.  With verification enabled and no document
    cached, it fetches first, outside its own exception handler: whatever
    [fetch] raises comes out of [verify] as it is, not as [False]. *)
Theorem verify_propagates_fetch_failure
    (env : Env) (c : Catalog) (t : trace) (e : exn) (c' : Catalog)
    (t' : trace) :
  verify_signatures c = true ->
  is_none (_verifier c) = false ->
  truthy (_catalog_data c) = false ->
  fetch env (c, t) = (Raise e, (c', t')) ->
  verify env (c, t) = (Raise e, (c', t')).
Proof.
  intros Hvs Hver Hdata Hfetch.
  unfold verify. unfold_monad. cbn. rewrite Hvs, Hver, Hdata. cbn.
  rewrite Hfetch. reflexivity.
Qed.

Lemma verify_propagates_fetch_failure_witness :
  verify_signatures FixturesFetch.unfetched = true /\
  is_none (_verifier FixturesFetch.unfetched) = false /\
  truthy (_catalog_data FixturesFetch.unfetched) = false /\
  verify Fixtures.offline (FixturesFetch.unfetched, []) =
  (Raise (Exn ClientError [Interp "connection refused"]),
   (FixturesFetch.unfetched,
    [SessionCreated;
     Sent (Request GET "http://example.com/.well-known/api-catalog" None)])).
Proof.
  split; [reflexivity |]. split; [reflexivity |]. split; [reflexivity |].
  apply (verify_propagates_fetch_failure Fixtures.offline
           FixturesFetch.unfetched []);
    reflexivity.
Defined.

(** X13: [verify_catalog] returns nothing but what [jwt.decode] accepted,
    under the key resolved for the [kid] of the token's header and with the
    algorithm that the (unverified) header names, [RS256] when it names
    none; every failure comes out as [SecurityError]; and a token whose
    header cannot be read fails before any request is made. *)
Theorem verify_catalog_returns_only_decoded_payload
    (env : Env) (self : CatalogVerifier) (token url : string) (t : trace) :
  (forall data,
      fst (verify_catalog env self token url t) = Ret data ->
      exists header key,
        get_unverified_header env token = Ret header /\
        fst (_get_public_key env self url (h_kid header) t) = Ret key /\
        jwt_decode env token key (default (VStr "RS256") (h_alg header)) =
          Ret data) /\
  (forall e,
      fst (verify_catalog env self token url t) = Raise e ->
      cls e = SecurityError) /\
  (forall e,
      get_unverified_header env token = Raise e ->
      snd (verify_catalog env self token url t) = t).
Proof.
  split; [| split].
  - intros data H.
    destruct (verify_catalog env self token url t) as [o t'] eqn:Hv.
    cbn in H. subst o.
    apply verify_catalog_ret in Hv as (header & key & Hh & Hk & Hd).
    exists header, key. rewrite Hk. auto.
  - intros e. unfold verify_catalog. unfold_monad. cbn.
    destruct (get_unverified_header env token) as [header|e0]; cbn.
    2:{ destruct (cls e0); cbn; intros H; apply (f_equal
          (fun o => match o with Raise x => cls x | Ret _ => SecurityError end))
          in H; cbn in H; now rewrite <- H. }
    destruct (_get_public_key env self url (h_kid header) t)
      as [[key|e1] t1]; cbn.
    2:{ destruct (cls e1); cbn; intros H; apply (f_equal
          (fun o => match o with Raise x => cls x | Ret _ => SecurityError end))
          in H; cbn in H; now rewrite <- H. }
    destruct (jwt_decode env token key _) as [doc|e2]; cbn; [discriminate |].
    destruct (cls e2); cbn; intros H; apply (f_equal
      (fun o => match o with Raise x => cls x | Ret _ => SecurityError end))
      in H; cbn in H; now rewrite <- H.
  - intros e He. unfold verify_catalog. unfold_monad. cbn. rewrite He. cbn.
    destruct (cls e); reflexivity.
Qed.
Lemma verify_enabled_true (env : Env) (c : Catalog) (t : trace) :
  verify_signatures c = true ->
  is_none (_verifier c) = false ->
  truthy (_catalog_data c) = true ->
  fst (verify env (c, t)) = Ret true ->
  exists items,
    SpecTrust.tools_of (_catalog_data c) = Ret items /\
    all_verified env t items.
Proof.
  intros Hvs Hver Hdata.
  destruct (SpecTrust.tools_of (_catalog_data c)) as [items|e] eqn:Hitems.
  - rewrite (verify_enabled_cases env c t items Hvs Hver Hdata Hitems). cbn.
    intros H. exists items. split; [reflexivity |].
    apply verify_tools_true.
    destruct (fst (verify_tools env items t)) as [b|e];
      [exact H | discriminate H].
  - unfold verify, SpecTrust.tools_of in *. unfold_monad. cbn.
    rewrite Hvs, Hver, Hdata. cbn.
    destruct (get (_catalog_data c) "tools" (VList [])) as [specs|e'];
      cbn in *; [| discriminate].
    rewrite Hitems. cbn. discriminate.
Qed.

(** X14: the default pipeline.  For a catalog created with verification
    enabled at an address that does not end in [.json], a [fetch] that
    returns a non-empty document followed by a [verify] that answers [True]
    means: the text served at the address passed [jwt.decode] under a key
    that key resolution produced for the origin, the document returned is
    its payload, and every referenced document had the recorded digest when
    it was fetched anew. *)
Theorem fetch_then_verify_checks_signature_and_digests
    (env : Env) (url : string) (t : trace) (data : value) (c1 : Catalog)
    (t1 : trace) (s2 : Catalog * trace) :
  endswith url ".json" = false ->
  fetch env (Catalog_init url true, t) = (Ret data, (c1, t1)) ->
  truthy data = true ->
  verify env (c1, t1) = (Ret true, s2) ->
  (exists r token header key,
      respond env (t ++ [SessionCreated]) (Request GET url None) = Ret r /\
      text r = Ret token /\
      get_unverified_header env token = Ret header /\
      fst (_get_public_key env {| trusted_keys := ∅ |} url (h_kid header)
             (t ++ [SessionCreated; Sent (Request GET url None)])) = Ret key /\
      jwt_decode env token key (default (VStr "RS256") (h_alg header)) =
        Ret data) /\
  (exists items,
      SpecTrust.tools_of data = Ret items /\ all_verified env t1 items).
Proof.
  intros Hurl Hfetch Hdata Hverify. split.
  - destruct (fetch_signed_ret env url t data c1 t1 Hurl Hfetch)
      as (r & token & Hr & Htext & Hv).
    apply verify_catalog_ret in Hv as (header & key & Hh & Hk & Hd).
    exists r, token, header, key. rewrite Hk.
    repeat split; solve [reflexivity | assumption].
  - apply fetch_shape in Hfetch as [_ ->].
    apply (verify_enabled_true env
             {| url := url; verify_signatures := true;
                _catalog_data := data; _tools := None;
                _verifier := Some {| trusted_keys := ∅ |} |} t1);
      try reflexivity; [exact Hdata |].
    cbn in Hverify. now rewrite Hverify.
Qed.

Lemma fetch_then_verify_checks_signature_and_digests_witness :
  endswith FixturesSigned.origin ".json" = false /\
  fst (fetch FixturesSigned.signed_world
         (Catalog_init FixturesSigned.origin true, [])) =
    Ret FixturesIntegrity.sound_catalog /\
  fst (verify FixturesSigned.signed_world
         (snd (fetch FixturesSigned.signed_world
                 (Catalog_init FixturesSigned.origin true, [])))) = Ret true /\
  exists items,
    SpecTrust.tools_of FixturesIntegrity.sound_catalog = Ret items /\
    all_verified FixturesSigned.signed_world
      (snd (snd (fetch FixturesSigned.signed_world
                   (Catalog_init FixturesSigned.origin true, [])))) items.
Proof.
  split; [reflexivity |]. split; [vm_compute; reflexivity |].
  split; [vm_compute; reflexivity |].
  refine (proj2 (fetch_then_verify_checks_signature_and_digests
                   FixturesSigned.signed_world FixturesSigned.origin []
                   FixturesIntegrity.sound_catalog
                   (fst (snd (fetch FixturesSigned.signed_world
                                (Catalog_init FixturesSigned.origin true,
                                 []))))
                   (snd (snd (fetch FixturesSigned.signed_world
                                (Catalog_init FixturesSigned.origin true,
                                 []))))
                   (snd (verify FixturesSigned.signed_world
                           (snd (fetch FixturesSigned.signed_world
                                   (Catalog_init FixturesSigned.origin true,
                                    [])))))
                   eq_refl _ eq_refl _));
    vm_compute; reflexivity.
Defined.

(** ** Key selection in trust documents and key sets *)

Import SpecSelect.

Ltac crush_matches :=
  repeat (case_match; simplify_eq; cbn in * );
  try done; try congruence.

Lemma did_methods_selected (env : Env) (key_id : option string)
    (method : value) (rest : list value) (jwk : value) :
  did_selects key_id method = Some jwk ->
  did_methods env key_id (method :: rest) = from_jwk env jwk.
Proof.
  intros Hsel. unfold did_selects in Hsel. cbn.
  unfold mbind, outcome_bind, get, value_endswith, default in *.
  crush_matches.
Qed.

Lemma did_methods_passed_over (env : Env) (key_id : option string)
    (method : value) (rest : list value) :
  did_passes_over key_id method = true ->
  did_methods env key_id (method :: rest) = did_methods env key_id rest.
Proof.
  intros Hm. unfold did_passes_over in Hm. cbn.
  unfold mbind, outcome_bind, get, value_endswith, default in *.
  crush_matches.
Qed.

Lemma did_methods_first_selected (env : Env) (key_id : option string)
    (skipped : list value) (method : value) (rest : list value)
    (jwk : value) :
  Forall (fun m => did_passes_over key_id m = true) skipped ->
  did_selects key_id method = Some jwk ->
  did_methods env key_id (skipped ++ method :: rest) = from_jwk env jwk.
Proof.
  intros Hskip Hsel.
  induction Hskip as [|m skipped Hm _ IH].
  - now apply did_methods_selected.
  - rewrite <- app_comm_cons, did_methods_passed_over by exact Hm. exact IH.
Qed.

Lemma did_methods_none_selected (env : Env) (key_id : option string)
    (methods : list value) :
  Forall (fun m => did_passes_over key_id m = true) methods ->
  did_methods env key_id methods =
  Raise (Exn SecurityError
           [Lit "No suitable public key found in DID document"]).
Proof.
  intros Hskip.
  induction Hskip as [|m skipped Hm _ IH]; [reflexivity |].
  rewrite did_methods_passed_over by exact Hm. exact IH.
Qed.

(** X15: in a trust document the first verification method that is
    eligible decides: it has a non-empty [publicKeyJwk] and, when a key id
    is given, an [id] that ends with the key id (a suffix match, not an
    equality).  Methods before it without a JWK or with another [id] are
    passed over, the methods after it are never looked at, and what
    [from_jwk] makes of its JWK, a key or an error, is the result. *)
Theorem did_document_first_eligible_method_decides
    (env : Env) (key_id : option string) (doc : list (string * value))
    (skipped : list value) (method : value) (rest : list value)
    (jwk : value) :
  assoc "verificationMethod" doc = Some (VList (skipped ++ method :: rest)) ->
  Forall (fun m => did_passes_over key_id m = true) skipped ->
  did_selects key_id method = Some jwk ->
  _extract_public_key_from_did env (VDict doc) key_id = from_jwk env jwk.
Proof.
  intros Hdoc Hskip Hsel.
  unfold _extract_public_key_from_did, mbind, outcome_bind. cbn.
  rewrite Hdoc. cbn.
  now apply did_methods_first_selected.
Qed.

Lemma did_document_first_eligible_method_decides_witness :
  _extract_public_key_from_did FixturesSigned.signed_world
    FixturesSelect.methods_document (Some "key1") =
  Ret FixturesSigned.signer_key.
Proof.
  apply (did_document_first_eligible_method_decides
           FixturesSigned.signed_world (Some "key1") _
           [FixturesSelect.other_method; FixturesSelect.bare_method]
           FixturesSelect.key1_method [] FixturesSigned.jwk).
  - reflexivity.
  - repeat constructor.
  - reflexivity.
Defined.

(** X16: a trust document without a [verificationMethod] member, with an
    empty one, or whose methods are all passed over, gives [SecurityError]
    "No suitable public key found in DID document". *)
Theorem did_document_without_eligible_method
    (env : Env) (key_id : option string) (doc : list (string * value))
    (methods : list value) :
  default (VList []) (assoc "verificationMethod" doc) = VList methods ->
  Forall (fun m => did_passes_over key_id m = true) methods ->
  _extract_public_key_from_did env (VDict doc) key_id =
  Raise (Exn SecurityError
           [Lit "No suitable public key found in DID document"]).
Proof.
  intros Hdoc Hskip.
  unfold _extract_public_key_from_did, mbind, outcome_bind. cbn.
  unfold default in Hdoc.
  destruct (assoc "verificationMethod" doc) as [v|]; cbn in *;
    simplify_eq; try reflexivity; now apply did_methods_none_selected.
Qed.

Lemma did_document_without_eligible_method_witness :
  _extract_public_key_from_did Fixtures.offline
    (VDict [("id", VStr "did:web:example.com")]) (Some "key1") =
  Raise (Exn SecurityError
           [Lit "No suitable public key found in DID document"]).
Proof.
  apply (did_document_without_eligible_method Fixtures.offline (Some "key1")
           [("id", VStr "did:web:example.com")] []).
  - reflexivity.
  - constructor.
Defined.
Lemma jwks_keys_selected (env : Env) (k : string) (d : list (string * value))
    (rest : list value) :
  k <> "" ->
  assoc "kid" d = Some (VStr k) ->
  jwks_keys env (Some k) (VDict d :: rest) = from_jwk env (VDict d).
Proof.
  intros Hk Hkid. cbn. apply String.eqb_neq in Hk. rewrite Hk.
  unfold mbind, outcome_bind, get. cbn. rewrite Hkid. cbn.
  now rewrite String.eqb_refl.
Qed.

Lemma jwks_keys_passed_over (env : Env) (k : string) (key : value)
    (rest : list value) :
  k <> "" ->
  jwks_passes_over k key = true ->
  jwks_keys env (Some k) (key :: rest) = jwks_keys env (Some k) rest.
Proof.
  intros Hk Hm. unfold jwks_passes_over in Hm. cbn.
  apply String.eqb_neq in Hk. rewrite Hk.
  unfold mbind, outcome_bind, get, default in *.
  crush_matches.
Qed.

Lemma jwks_lookup_cases (env : Env) (url : string) (p : parsed_url)
    (key_id : option string) (t : trace) (r : response)
    (set : list (string * value)) (keys : list value) :
  urlparse env url = Ret p ->
  respond env (t ++ [SessionCreated])
    (Request GET (jwks_url p) None) = Ret r ->
  (status r < 400)%Z ->
  json r = Ret (VDict set) ->
  assoc "keys" set = Some (VList keys) ->
  _get_key_from_jwks env url key_id t =
  (match jwks_keys env key_id keys with
   | Ret key => Ret key
   | Raise e => Raise (security_error "Could not retrieve JWKS: " e)
   end,
   t ++ [SessionCreated; Sent (Request GET (jwks_url p) None)]).
Proof.
  intros Hparse Hresp Hst Hjson Hkeys.
  replace (t ++ [SessionCreated; Sent (Request GET (jwks_url p) None)])
    with ((t ++ [SessionCreated]) ++
          [Sent (Request GET (jwks_url p) None)])
    by (rewrite <- app_assoc; reflexivity).
  unfold _get_key_from_jwks, raise_for_status, jwks_url in *.
  unfold_monad. cbn. rewrite Hparse. cbn. rewrite Hresp. cbn.
  destruct (400 <=? status r)%Z eqn:Hle; [apply Z.leb_le in Hle; lia |].
  cbn. rewrite Hjson. cbn. rewrite Hkeys. cbn.
  destruct (jwks_keys env key_id keys); reflexivity.
Qed.

(** X17: in a key set, with a key id, the first key whose [kid] is equal to
    the key id decides (an equality, unlike the suffix match of trust
    documents): keys with another [kid] before it are passed over, and what
    [from_jwk] makes of the whole key entry is the result, an error being
    wrapped as [SecurityError].  One request is made, to the origin's
    [/.well-known/jwks.json]. *)
Theorem jwks_first_key_with_equal_kid_decides
    (env : Env) (url k : string) (p : parsed_url) (t : trace) (r : response)
    (set : list (string * value)) (skipped : list value)
    (d : list (string * value)) (rest : list value) :
  k <> "" ->
  urlparse env url = Ret p ->
  respond env (t ++ [SessionCreated])
    (Request GET (jwks_url p) None) = Ret r ->
  (status r < 400)%Z ->
  json r = Ret (VDict set) ->
  assoc "keys" set = Some (VList (skipped ++ VDict d :: rest)) ->
  Forall (fun key => jwks_passes_over k key = true) skipped ->
  assoc "kid" d = Some (VStr k) ->
  _get_key_from_jwks env url (Some k) t =
  (match from_jwk env (VDict d) with
   | Ret key => Ret key
   | Raise e => Raise (security_error "Could not retrieve JWKS: " e)
   end,
   t ++ [SessionCreated; Sent (Request GET (jwks_url p) None)]).
Proof.
  intros Hk Hparse Hresp Hst Hjson Hkeys Hskip Hkid.
  rewrite (jwks_lookup_cases env url p (Some k) t r set _
             Hparse Hresp Hst Hjson Hkeys).
  f_equal. clear Hkeys.
  assert (Hloop : jwks_keys env (Some k) (skipped ++ VDict d :: rest) =
                  from_jwk env (VDict d)).
  { induction Hskip as [|m skipped Hm _ IH].
    - now apply jwks_keys_selected.
    - rewrite <- app_comm_cons, jwks_keys_passed_over by assumption.
      exact IH. }
  now rewrite Hloop.
Qed.

Lemma jwks_first_key_with_equal_kid_decides_witness :
  fst (_get_key_from_jwks FixturesSelect.jwks_world
         "https://example.com/.well-known/api-catalog" (Some "key1") []) =
  Ret FixturesSigned.signer_key.
Proof.
  exact (f_equal fst
    (jwks_first_key_with_equal_kid_decides FixturesSelect.jwks_world
       "https://example.com/.well-known/api-catalog" "key1"
       {| scheme := "https"; netloc := "example.com" |} []
       (Fixtures.ok_response "" (Ret FixturesSelect.key_set))
       [("keys",
         VList ([VDict [("kid", VStr "xkey1"); ("kty", VStr "RSA")]] ++
                VDict [("kid", VStr "key1"); ("kty", VStr "RSA")] :: []))]
       [VDict [("kid", VStr "xkey1"); ("kty", VStr "RSA")]]
       [("kid", VStr "key1"); ("kty", VStr "RSA")] []
       ltac:(discriminate) eq_refl eq_refl eq_refl eq_refl eq_refl
       ltac:(repeat constructor) eq_refl)).
Defined.

(** X18: without a key id, [_get_key_from_jwks] takes the first entry of
    the key set, whatever it is and however many entries follow; an empty
    key set gives [SecurityError]. *)
Theorem jwks_without_key_id_takes_first_key
    (env : Env) (url : string) (p : parsed_url) (key_id : option string)
    (t : trace) (r : response) (set : list (string * value))
    (keys : list value) :
  no_key_id key_id = true ->
  urlparse env url = Ret p ->
  respond env (t ++ [SessionCreated])
    (Request GET (jwks_url p) None) = Ret r ->
  (status r < 400)%Z ->
  json r = Ret (VDict set) ->
  assoc "keys" set = Some (VList keys) ->
  fst (_get_key_from_jwks env url key_id t) =
  match keys with
  | key :: _ =>
      match from_jwk env key with
      | Ret pk => Ret pk
      | Raise e => Raise (security_error "Could not retrieve JWKS: " e)
      end
  | [] =>
      Raise (security_error "Could not retrieve JWKS: "
               (Exn SecurityError [Lit "No suitable key found in JWKS"]))
  end.
Proof.
  intros Hno Hparse Hresp Hst Hjson Hkeys.
  rewrite (jwks_lookup_cases env url p key_id t r set keys
             Hparse Hresp Hst Hjson Hkeys). cbn.
  destruct keys as [|key rest]; cbn; [reflexivity |].
  rewrite Hno. reflexivity.
Qed.

Lemma jwks_without_key_id_takes_first_key_witness :
  fst (_get_key_from_jwks FixturesSelect.jwks_world
         "https://example.com/.well-known/api-catalog" None []) =
  Raise (Exn SecurityError
           [Lit "Could not retrieve JWKS: "; Interp "InvalidKeyError"]).
Proof.
  exact (jwks_without_key_id_takes_first_key FixturesSelect.jwks_world
           "https://example.com/.well-known/api-catalog"
           {| scheme := "https"; netloc := "example.com" |} None []
           (Fixtures.ok_response "" (Ret FixturesSelect.key_set))
           [("keys",
             VList ([VDict [("kid", VStr "xkey1"); ("kty", VStr "RSA")]] ++
                    VDict [("kid", VStr "key1"); ("kty", VStr "RSA")] :: []))]
           _ eq_refl eq_refl eq_refl eq_refl eq_refl eq_refl).
Defined.

(** X19: when [urlparse] accepts the catalog address, [_get_key_from_jwks]
    makes exactly one request, in a session of its own, and either returns
    a key or raises [SecurityError]: a failed request, an error status, a
    body that is not JSON, a key set without a suitable key and a key that
    cannot be decoded all come out as [SecurityError].  When [urlparse]
    rejects the address, its exception leaves as it is, not as
    [SecurityError], and no request is made: the address is parsed before
    the [try]. *)
Theorem jwks_lookup_one_request_key_or_security_error
    (env : Env) (url : string) (key_id : option string) (t : trace) :
  match urlparse env url with
  | Ret p =>
      ((exists k, fst (_get_key_from_jwks env url key_id t) = Ret k) \/
       raises (fst (_get_key_from_jwks env url key_id t)) SecurityError) /\
      snd (_get_key_from_jwks env url key_id t) =
      t ++ [SessionCreated; Sent (Request GET (jwks_url p) None)]
  | Raise e => _get_key_from_jwks env url key_id t = (Raise e, t)
  end.
Proof.
  destruct (urlparse env url) as [p|e] eqn:Hparse.
  - now apply get_key_from_jwks_outcome.
  - now apply get_key_from_jwks_rejected.
Qed.

Example jwks_lookup_of_unparsable_address :
  _get_key_from_jwks Fixtures.offline "http://[" (Some "key1") [] =
  (Raise (Exn ValueError [Lit "Invalid IPv6 URL"]), []).
Proof. reflexivity. Qed.

(** ** [MCPClient] and [Tool.call] *)

Import SpecClient.

Lemma rstrip_rev_spec (c : ascii) (r : list ascii) :
  exists n,
    r = repeat c n ++ rstrip_rev c r /\ head (rstrip_rev c r) <> Some c.
Proof.
  induction r as [|x r IH]; cbn.
  - exists 0. split; [reflexivity | discriminate].
  - destruct (Ascii.eqb x c) eqn:Hx.
    + apply Ascii.eqb_eq in Hx. subst x.
      destruct IH as (n & Hr & Hh). exists (S n). cbn.
      split; [now rewrite <- Hr | exact Hh].
    + exists 0. cbn. split; [reflexivity |].
      intros H. injection H as ->. now rewrite Ascii.eqb_refl in Hx.
Qed.

Lemma rev_repeat_same {A} (c : A) (n : nat) : rev (repeat c n) = repeat c n.
Proof.
  induction n as [|n IH]; cbn; [reflexivity |].
  rewrite IH. clear IH. induction n as [|n IH]; cbn; [reflexivity |].
  now rewrite IH.
Qed.

Lemma last_rev_head {A} (l : list A) : last (rev l) = head l.
Proof.
  destruct l as [|x l]; cbn; [reflexivity |].
  now rewrite last_snoc.
Qed.

Lemma rstrip_spec (c : ascii) (s : string) :
  (exists n,
      list_ascii_of_string s =
      list_ascii_of_string (rstrip c s) ++ repeat c n) /\
  last (list_ascii_of_string (rstrip c s)) <> Some c.
Proof.
  unfold rstrip. rewrite list_ascii_of_string_of_list_ascii.
  destruct (rstrip_rev_spec c (rev (list_ascii_of_string s)))
    as (n & Hr & Hh).
  split.
  - exists n.
    assert (H : list_ascii_of_string s =
                rev (repeat c n ++
                     rstrip_rev c (rev (list_ascii_of_string s))))
      by (rewrite <- Hr; symmetry; apply rev_involutive).
    rewrite H at 1. rewrite rev_app_distr, rev_repeat_same. reflexivity.
  - now rewrite last_rev_head.
Qed.

(** X20: a client's endpoint never ends with a slash: the constructor
    removes every trailing [/] of the address it is given and nothing else;
    an address that is not a string is refused with [AttributeError]. *)
Theorem client_endpoint_has_no_trailing_slash (address : value) :
  match address with
  | VStr e =>
      exists c n,
        McpClient.init address = Ret c /\
        list_ascii_of_string e =
          list_ascii_of_string (endpoint c) ++ repeat "/"%char n /\
        last (list_ascii_of_string (endpoint c)) <> Some "/"%char /\
        _session c = false
  | _ => McpClient.init address = Raise (no_attribute "rstrip")
  end.
Proof.
  destruct address as [| | |e| |]; try reflexivity.
  destruct (rstrip_spec "/" e) as [(n & Hn) Hlast].
  eexists. exists n. split; [reflexivity |]. cbn. auto.
Qed.

Lemma keeps_state_lift {S A} (o : outcome A) : keeps_state (S := S) (lift o).
Proof. intros s. reflexivity. Qed.

Lemma keeps_state_raise {S A} (e : exn) :
  keeps_state (S := S) (A := A) (raise e).
Proof. intros s. reflexivity. Qed.

Lemma keeps_state_bind {S A B} (m : M S A) (k : A -> M S B) :
  keeps_state m -> (forall a, keeps_state (k a)) -> keeps_state (m ≫= k).
Proof.
  intros Hm Hk s. unfold mbind, M_bind, bind.
  specialize (Hm s). destruct (m s) as [[a|e] s']; cbn in *; subst s'.
  - apply Hk.
  - reflexivity.
Qed.

Lemma wrap_errors_only_MCPError {S A} (m : M S A) (s : S) (e : exn) :
  fst (wrap_errors m s) = Raise e -> cls e = MCPError.
Proof.
  unfold wrap_errors. unfold_monad.
  destruct (m s) as [[a|e0] s']; cbn; [discriminate |].
  destruct (cls e0); cbn; intros H; injection H as <-; reflexivity.
Qed.

Lemma wrap_errors_state {S A} (m : M S A) (s : S) :
  snd (wrap_errors m s) = snd (m s).
Proof.
  unfold wrap_errors. unfold_monad.
  destruct (m s) as [[a|e0] s']; cbn; [reflexivity |].
  destruct (cls e0); reflexivity.
Qed.

Lemma post_state (env : Env) (body : rpc_body) (self : MCPClient)
    (t : trace) :
  snd (post env body (self, t)) =
  (self,
   match urljoin env (endpoint self) "/mcp" with
   | Ret target => t ++ [Sent (Request POST target (Some body))]
   | Raise _ => t
   end).
Proof.
  unfold post, raise_for_status. unfold_monad. cbn.
  destruct (urljoin env (endpoint self) "/mcp") as [target|e0]; cbn;
    [| reflexivity].
  destruct (respond env t _) as [r|e]; cbn; [| reflexivity].
  destruct (400 <=? status r)%Z; cbn; [reflexivity |].
  destruct (json r); reflexivity.
Qed.

Lemma bind_state_after {S A B} (m : M S A) (k : A -> M S B) (s : S) :
  (forall a, keeps_state (k a)) -> snd ((m ≫= k) s) = snd (m s).
Proof.
  intros Hk. unfold mbind, M_bind, bind.
  destruct (m s) as [[a|e] s']; cbn; [apply Hk | reflexivity].
Qed.

Lemma get_session_run (self : MCPClient) (t : trace) :
  _get_session (self, t) = (Ret tt, (with_session self, session_trace self t)).
Proof.
  unfold _get_session, with_session, session_trace. unfold_monad. cbn.
  destruct self as [e tm []]; reflexivity.
Qed.

Lemma envelope_keeps_state (result : value) (extract : value -> outcome value) :
  keeps_state (S := MCPClient * trace)
    (has_error ← lift (contains_str "error" result);
     if (has_error : bool) then
       error ← lift (getitem result "error");
       e ← lift (mcp_error error);
       raise e
     else lift (extract result)).
Proof.
  apply keeps_state_bind; [apply keeps_state_lift | intros [|]].
  - apply keeps_state_bind; [apply keeps_state_lift | intros error].
    apply keeps_state_bind; [apply keeps_state_lift | intros e].
    apply keeps_state_raise.
  - apply keeps_state_lift.
Qed.

Lemma call_tool_after_session (env : Env) (tool_id params : value)
    (self : MCPClient) (t : trace) :
  call_tool env tool_id params (self, t) =
  wrap_errors
    (result ← post env (call_request_data tool_id params);
     has_error ← lift (contains_str "error" result);
     if (has_error : bool) then
       error ← lift (getitem result "error");
       e ← lift (mcp_error error);
       raise e
     else lift (get result "result" (VDict [])))
    (with_session self, session_trace self t).
Proof.
  unfold call_tool.
  change (_get_session;; ?m) with (_get_session ≫= fun _ => m).
  unfold mbind at 1, M_bind at 1, bind at 1. rewrite get_session_run.
  reflexivity.
Qed.

Lemma call_tool_state (env : Env) (tool_id params : value)
    (self : MCPClient) (t : trace) :
  snd (call_tool env tool_id params (self, t)) =
    (with_session self,
     match urljoin env (endpoint self) "/mcp" with
     | Ret target =>
         session_trace self t ++ [Sent (call_post target tool_id params)]
     | Raise _ => session_trace self t
     end) /\
  (forall e,
      fst (call_tool env tool_id params (self, t)) = Raise e ->
      cls e = MCPError).
Proof.
  rewrite call_tool_after_session.
  split.
  - rewrite wrap_errors_state, bind_state_after.
    + apply (post_state env _ (with_session self)).
    + intros result.
      apply (envelope_keeps_state result
               (fun r => get r "result" (VDict []))).
  - intros e. apply wrap_errors_only_MCPError.
Qed.

Lemma call_tool_rejected (env : Env) (tool_id params : value)
    (self : MCPClient) (t : trace) (e0 : exn) :
  urljoin env (endpoint self) "/mcp" = Raise e0 ->
  fst (call_tool env tool_id params (self, t)) =
  Raise (Exn MCPError
           (Lit (match cls e0 with
                 | ClientError => "Network error: "
                 | _ => "Unexpected error: "
                 end) :: msg e0)).
Proof.
  intros Hjoin. rewrite call_tool_after_session.
  unfold wrap_errors, post, with_session. unfold_monad. cbn.
  rewrite Hjoin. cbn. destruct (cls e0); reflexivity.
Qed.

(** X21: whatever the server does, [call_tool] sends at most one request
    (it never retries): exactly one, to the address [urljoin] makes of the
    endpoint and [/mcp], or none at all when [urljoin] rejects the endpoint,
    which is reported as [MCPError].  It creates a session only when the
    client has none, leaves the client with one, and raises nothing but
    [MCPError]: transport failures, HTTP error statuses, undecodable bodies,
    error envelopes and malformed envelopes all come out as [MCPError]. *)
Theorem call_tool_sends_at_most_once_and_raises_only_MCPError
    (env : Env) (tool_id params : value) (self : MCPClient) (t : trace) :
  match urljoin env (endpoint self) "/mcp" with
  | Ret target =>
      snd (call_tool env tool_id params (self, t)) =
      (with_session self,
       session_trace self t ++ [Sent (call_post target tool_id params)])
  | Raise e0 =>
      call_tool env tool_id params (self, t) =
      (Raise (Exn MCPError
                (Lit (match cls e0 with
                      | ClientError => "Network error: "
                      | _ => "Unexpected error: "
                      end) :: msg e0)),
       (with_session self, session_trace self t))
  end /\
  (forall e,
      fst (call_tool env tool_id params (self, t)) = Raise e ->
      cls e = MCPError).
Proof.
  destruct (call_tool_state env tool_id params self t) as [Hst Hexn].
  split; [| exact Hexn].
  destruct (urljoin env (endpoint self) "/mcp") as [target|e0] eqn:Hjoin;
    [exact Hst |].
  rewrite (surjective_pairing (call_tool env tool_id params (self, t))).
  now rewrite Hst, (call_tool_rejected env tool_id params self t e0 Hjoin).
Qed.

(** X22: how [call_tool] reports a call that got no usable answer.  A
    request that fails with an aiohttp client error and an answer with a
    status of 400 or more are reported as [MCPError] "Network error: ...";
    a request that fails with any other exception is reported as [MCPError]
    "Unexpected error: ...", carrying the original text. *)
Theorem call_tool_reports_transport_failures
    (env : Env) (tool_id params : value) (self : MCPClient) (t : trace) :
  (forall target e0,
      urljoin env (endpoint self) "/mcp" = Ret target ->
      respond env (session_trace self t) (call_post target tool_id params)
        = Raise e0 ->
      fst (call_tool env tool_id params (self, t)) =
      Raise (Exn MCPError
               (Lit (match cls e0 with
                     | ClientError => "Network error: "
                     | _ => "Unexpected error: "
                     end) :: msg e0))) /\
  (forall target r,
      urljoin env (endpoint self) "/mcp" = Ret target ->
      respond env (session_trace self t) (call_post target tool_id params)
        = Ret r ->
      (400 <= status r)%Z ->
      fst (call_tool env tool_id params (self, t)) =
      Raise (Exn MCPError
               [Lit "Network error: "; Interp "ClientResponseError"])).
Proof.
  rewrite call_tool_after_session.
  unfold wrap_errors, post, raise_for_status, call_post, with_session.
  unfold_monad. cbn. split.
  - intros target e0 -> ->. cbn. destruct (cls e0); reflexivity.
  - intros target r -> -> Hst. cbn. apply Z.leb_le in Hst. rewrite Hst.
    reflexivity.
Qed.

Lemma list_tools_after_session (env : Env) (self : MCPClient) (t : trace) :
  list_tools env (self, t) =
  wrap_errors
    (result ← post env {| rpc_id := [Lit "list_tools"];
                          rpc_method := "tools/list";
                          rpc_params := VDict [] |};
     has_error ← lift (contains_str "error" result);
     if (has_error : bool) then
       error ← lift (getitem result "error");
       e ← lift (mcp_error error);
       raise e
     else
       r ← lift (get result "result" (VDict []));
       lift (get r "tools" (VList [])))
    (with_session self, session_trace self t).
Proof.
  unfold list_tools.
  change (_get_session;; ?m) with (_get_session ≫= fun _ => m).
  unfold mbind at 1, M_bind at 1, bind at 1. rewrite get_session_run.
  reflexivity.
Qed.

(** X23: [list_tools], once the server has answered with a JSON object
    without an [error] member, returns the [tools] member of the [result]
    member; a missing [result] or a missing [tools] gives the empty list,
    and a [result] that is not an object gives [MCPError]. *)
Theorem list_tools_reads_result_tools
    (env : Env) (self : MCPClient) (t : trace) (target : string)
    (r : response) (entries : list (string * value)) :
  urljoin env (endpoint self) "/mcp" = Ret target ->
  respond env (session_trace self t) (list_post target) = Ret r ->
  (status r < 400)%Z ->
  json r = Ret (VDict entries) ->
  assoc "error" entries = None ->
  fst (list_tools env (self, t)) =
  match default (VDict []) (assoc "result" entries) with
  | VDict result => Ret (default (VList []) (assoc "tools" result))
  | _ =>
      Raise (Exn MCPError (Lit "Unexpected error: " :: msg (no_attribute "get")))
  end.
Proof.
  intros Hjoin Hresp Hst Hjson Herr.
  rewrite list_tools_after_session.
  unfold wrap_errors, post, raise_for_status, list_post, with_session in *.
  unfold_monad. cbn. rewrite Hjoin. cbn. rewrite Hresp. cbn.
  destruct (400 <=? status r)%Z eqn:Hle; [apply Z.leb_le in Hle; lia |].
  cbn. rewrite Hjson. cbn. rewrite Herr. cbn.
  unfold default.
  destruct (assoc "result" entries) as [[| | | | |result]|]; cbn;
    try reflexivity.
Qed.

Lemma list_tools_reads_result_tools_witness :
  fst (list_tools FixturesClient.listing_world (FixturesInvoke.client, [])) =
  Ret (VList [VDict [("name", VStr "tool1")]]).
Proof.
  exact (list_tools_reads_result_tools FixturesClient.listing_world
           FixturesInvoke.client [] "http://localhost:3001/mcp"
           (Fixtures.ok_response ""
              (Ret (VDict
                 [("jsonrpc", VStr "2.0"); ("id", VStr "list_tools");
                  ("result",
                   VDict [("tools",
                           VList [VDict [("name", VStr "tool1")]])])])))
           _ eq_refl eq_refl eq_refl eq_refl eq_refl).
Defined.

(** X24: a [Tool.call] on a tool whose endpoint is a non-empty string
    creates a session of its own and posts at most one request, naming the
    tool by its id and carrying the arguments.  The request goes to the
    address [urljoin] makes of [/mcp] and the endpoint without its trailing
    slashes (so to [/mcp] on the origin of the endpoint, whatever path the
    endpoint has); when [urljoin] rejects the endpoint nothing is posted
    and the call fails.  Whatever goes wrong once the session exists is an
    [MCPError]. *)
Theorem call_posts_once_to_the_endpoint
    (env : Env) (self : Tool) (params : value) (t : trace) (u : string) :
  server_url self = VStr u ->
  u <> "" ->
  snd (call env self params t) =
    t ++ SessionCreated ::
         match urljoin env (rstrip "/" u) "/mcp" with
         | Ret target =>
             [Sent (Request POST target
                      (Some (call_request_data (id self) params)))]
         | Raise _ => []
         end /\
  (forall e0,
      urljoin env (rstrip "/" u) "/mcp" = Raise e0 ->
      raises (fst (call env self params t)) MCPError) /\
  (forall e, fst (call env self params t) = Raise e -> cls e = MCPError).
Proof.
  intros Hurl Hu. unfold call. rewrite Hurl. cbn.
  apply String.eqb_neq in Hu. rewrite Hu. cbn.
  change ((lift (Ret {| endpoint := rstrip "/" u; timeout := 30;
                        _session := false |})
           ≫= fun client : MCPClient =>
                with_object client (call_tool env (id self) params)) t)
    with (with_object {| endpoint := rstrip "/" u; timeout := 30;
                         _session := false |}
            (call_tool env (id self) params) t).
  unfold with_object.
  pose proof (call_tool_state env (id self) params
                {| endpoint := rstrip "/" u; timeout := 30;
                   _session := false |} t) as [Hst Hexn].
  pose proof (call_tool_rejected env (id self) params
                {| endpoint := rstrip "/" u; timeout := 30;
                   _session := false |} t) as Hrej.
  destruct (call_tool env (id self) params _) as [o [c' t']]; cbn in *.
  split; [| split].
  - injection Hst as _ ->. unfold session_trace, call_post. cbn.
    destruct (urljoin env (rstrip "/" u) "/mcp");
      [now rewrite <- app_assoc | reflexivity].
  - intros e0 He0. rewrite (Hrej e0 He0). eexists. reflexivity.
  - exact Hexn.
Qed.

Lemma call_posts_once_to_the_endpoint_witness :
  snd (call Fixtures.offline
         {| spec := FixturesCall.test_tool_spec; id := VStr "test_tool";
            description := VStr "A test tool for unit testing";
            parameters := VDict []; examples := VList [];
            server_url := VStr "http://localhost:3001/api/";
            capabilities := VList [VStr "testing"; VStr "demo"] |}
         (VDict []) []) =
  [SessionCreated;
   Sent (Request POST "http://localhost:3001/mcp"
           (Some (call_request_data (VStr "test_tool") (VDict []))))].
Proof.
  exact (proj1 (call_posts_once_to_the_endpoint Fixtures.offline
                  {| spec := FixturesCall.test_tool_spec;
                     id := VStr "test_tool";
                     description := VStr "A test tool for unit testing";
                     parameters := VDict []; examples := VList [];
                     server_url := VStr "http://localhost:3001/api/";
                     capabilities := VList [VStr "testing"; VStr "demo"] |}
                  (VDict []) [] "http://localhost:3001/api/" eq_refl
                  ltac:(discriminate))).
Defined.

(** An endpoint that [urljoin] cannot split: the call opens a session,
    posts nothing and fails with [MCPError]. *)
Example call_with_unparsable_endpoint :
  call Fixtures.offline
    {| spec := VDict []; id := VStr "t"; description := VStr "";
       parameters := VDict []; examples := VList [];
       server_url := VStr "http://["; capabilities := VList [] |}
    (VDict []) [] =
  (Raise (Exn MCPError [Lit "Unexpected error: "; Lit "Invalid IPv6 URL"]),
   [SessionCreated]).
Proof. reflexivity. Qed.

(** X25: a catalog entry without an [x-mcp-tool] member still gives a
    tool, with empty endpoint, capabilities and examples, so it is listed by
    [find]; but it cannot be called: [call] raises [ValueError] and the
    network is not touched. *)
Theorem entry_without_mcp_config_cannot_be_called
    (env : Env) (entries : list (string * value)) (params : value)
    (t : trace) :
  assoc "x-mcp-tool" entries = None ->
  exists tool,
    Tool_init (VDict entries) = Ret tool /\
    server_url tool = VStr "" /\
    capabilities tool = VList [] /\
    examples tool = VList [] /\
    call env tool params t =
    (Raise (Exn ValueError
              [Lit "No server URL configured for tool "; Fmt (id tool)]), t).
Proof.
  intros Hnone. eexists. split.
  - unfold Tool_init, mbind, outcome_bind, get. cbn. rewrite Hnone. cbn.
    reflexivity.
  - cbn. auto.
Qed.

Lemma entry_without_mcp_config_cannot_be_called_witness :
  exists tool,
    Tool_init (VDict [("name", VStr "minimal_tool")]) = Ret tool /\
    server_url tool = VStr "" /\
    capabilities tool = VList [] /\
    examples tool = VList [] /\
    call Fixtures.offline tool (VDict []) [] =
    (Raise (Exn ValueError
              [Lit "No server URL configured for tool "; Fmt (id tool)]), []).
Proof.
  exact (entry_without_mcp_config_cannot_be_called Fixtures.offline
           [("name", VStr "minimal_tool")] (VDict []) [] eq_refl).
Defined.

(** ** [CatalogSigner] and the heap *)

Import SpecHeap.

Lemma heap_grows_refl (h : heap) : heap_grows h h.
Proof.
  intros l. destruct (h !! l) as [[items|d]|]; auto.
  exists d. split; [reflexivity | intros k v H; exact H].
Qed.

Lemma heap_grows_trans (h1 h2 h3 : heap) :
  heap_grows h1 h2 -> heap_grows h2 h3 -> heap_grows h1 h3.
Proof.
  intros H12 H23 l. specialize (H12 l). specialize (H23 l).
  destruct (h1 !! l) as [[items|d]|]; auto.
  - rewrite H12 in H23. exact H23.
  - destruct H12 as (d2 & Hd2 & Hk12). rewrite Hd2 in H23.
    destruct H23 as (d3 & Hd3 & Hk23). exists d3. split; [exact Hd3 |].
    intros k v Hk. auto.
Qed.

Lemma heap_grows_alloc (h : heap) (o : hobj) :
  heap_grows h (<[fresh (dom h) := o]> h).
Proof.
  intros l.
  assert (Hfresh : h !! fresh (dom h) = None)
    by (apply not_elem_of_dom, is_fresh).
  destruct (decide (l = fresh (dom h))) as [-> | Hne].
  - now rewrite Hfresh.
  - rewrite lookup_insert_ne by congruence.
    destruct (h !! l) as [[items|d]|]; auto.
    exists d. split; [reflexivity | intros k v H; exact H].
Qed.

Lemma assoc_set_keeps {A} (k : string) (x : A) (d : list (string * A)) :
  assoc k d = None ->
  forall k' v, assoc k' d = Some v -> assoc k' (assoc_set k x d) = Some v.
Proof.
  intros Hk k' v. induction d as [|[k0 v0] d IH]; cbn in *; [discriminate |].
  destruct (String.eqb k0 k) eqn:Hk0; [discriminate Hk |].
  cbn. destruct (String.eqb k0 k'); [auto | now apply IH].
Qed.

Lemma heap_grows_new_key (h : heap) (l : loc) (d : list (string * hval))
    (k : string) (x : hval) :
  h !! l = Some (HDict d) ->
  assoc k d = None ->
  heap_grows h (<[l := HDict (assoc_set k x d)]> h).
Proof.
  intros Hl Hk l'.
  destruct (decide (l' = l)) as [-> | Hne].
  - rewrite Hl, lookup_insert_eq. eexists. split; [reflexivity |].
    intros k' v. now apply assoc_set_keeps.
  - rewrite lookup_insert_ne by congruence.
    destruct (h !! l') as [[items|d']|]; auto.
    exists d'. split; [reflexivity | intros k' v H; exact H].
Qed.

Lemma add_hashes_grows (items : list hval) :
  forall h, heap_grows h (snd (add_hashes items h)).
Proof.
  induction items as [|tool rest IH]; intros h; cbn [add_hashes].
  - apply heap_grows_refl.
  - unfold hget, hcontains, hsetitem, deref, _compute_placeholder_hash.
    unfold_monad. cbn.
    destruct tool as [| | | |l]; cbn; try apply heap_grows_refl.
    destruct (h !! l) as [[items|d]|] eqn:Hl; cbn;
      try apply heap_grows_refl.
    set (spec_url := match assoc "spec_url" d with
                     | Some x => x
                     | None => HNone
                     end).
    destruct (htruthy h spec_url) eqn:Htruthy; cbn; [| apply IH].
    rewrite Hl. cbn.
    destruct (assoc "spec_hash" d) eqn:Hhash; cbn; [apply IH |].
    destruct spec_url as [| | |u|l']; cbn; try apply heap_grows_refl.
    rewrite Hl. cbn.
    eapply heap_grows_trans; [| apply IH].
    now apply heap_grows_new_key.
Qed.
Lemma add_content_hashes_grows (catalog : hval) (h : heap) :
  heap_grows h (snd (_add_content_hashes catalog h)).
Proof.
  unfold _add_content_hashes, copy, alloc, hget, hiterate, deref.
  unfold_monad. cbn.
  destruct catalog as [| | | |l]; cbn; try apply heap_grows_refl.
  destruct (h !! l) as [o|] eqn:Hl; cbn; [| apply heap_grows_refl].
  set (h1 := <[fresh (dom h) := o]> h).
  set (h2 := <[fresh (dom h1) := HList []]> h1).
  assert (H12 : heap_grows h h2).
  { eapply heap_grows_trans; apply heap_grows_alloc. }
  assert (Hcopy : h2 !! fresh (dom h) = Some o).
  { unfold h2. rewrite lookup_insert_ne.
    - unfold h1. apply lookup_insert_eq.
    - intros Heq. pose proof (is_fresh (dom h1)) as Hf. rewrite Heq in Hf.
      apply Hf. unfold h1. rewrite dom_insert. set_solver. }
  rewrite Hcopy. cbn.
  destruct o as [items|d]; cbn; [exact H12 |].
  pose proof (add_hashes_grows) as Hloop.
  destruct (match assoc "tools" d with
            | Some x => x
            | None => HRef (fresh (dom h1))
            end) as [| | |s|l']; cbn; try exact H12.
  - specialize (Hloop (map (fun c => HStr (String c EmptyString))
                           (list_ascii_of_string s)) h2).
    destruct (add_hashes _ h2) as [[[]|e] h3]; cbn in *;
      eapply heap_grows_trans; eauto.
  - destruct (h2 !! l') as [[items|d']|]; cbn; try exact H12.
    + specialize (Hloop items h2).
      destruct (add_hashes _ h2) as [[[]|e] h3]; cbn in *;
        eapply heap_grows_trans; eauto.
    + specialize (Hloop (map (fun kv => HStr (fst kv)) d') h2).
      destruct (add_hashes _ h2) as [[[]|e] h3]; cbn in *;
        eapply heap_grows_trans; eauto.
Qed.

(** X26: signing only adds.  Whatever catalog it is given and however it
    ends, [sign_catalog] leaves every list of the heap as it was and every
    dict with all its entries and their values: it never removes or
    replaces anything (an existing [spec_hash] is kept), it only adds keys
    and new objects. *)
Theorem sign_catalog_only_adds
    (env : Env) (self : CatalogSigner) (catalog : hval) (h : heap) :
  heap_grows h (snd (sign_catalog env self catalog h)).
Proof.
  rewrite sign_catalog_heap. apply add_content_hashes_grows.
Qed.

(** X27: the catalog [_add_content_hashes] returns is a new object: a
    reference to an address that was free in the caller's heap. *)
Theorem add_content_hashes_returns_new_object
    (catalog : hval) (h : heap) (result : hval) (h' : heap) :
  _add_content_hashes catalog h = (Ret result, h') ->
  exists l, result = HRef l /\ h !! l = None /\ is_Some (h' !! l).
Proof.
  intros Hrun.
  pose proof (add_content_hashes_grows catalog h) as Hgrow.
  rewrite Hrun in Hgrow. cbn in Hgrow.
  unfold _add_content_hashes, copy, alloc, deref in Hrun.
  unfold_monad. cbn in Hrun.
  destruct catalog as [| | | |l0]; cbn in Hrun; try discriminate Hrun.
  destruct (h !! l0) as [o|] eqn:Hl; cbn in Hrun; [| discriminate Hrun].
  set (h1 := <[fresh (dom h) := o]> h) in *.
  set (h2 := <[fresh (dom h1) := HList []]> h1) in *.
  assert (Hres : result = HRef (fresh (dom h))).
  { destruct (hget (HRef (fresh (dom h))) "tools"
                (HRef (fresh (dom h1))) h2) as [[tools|e] h3];
      cbn in Hrun; [| discriminate Hrun].
    destruct (hiterate tools h3) as [[items|e] h4]; cbn in Hrun;
      [| discriminate Hrun].
    destruct (add_hashes items h4) as [[[]|e] h5]; cbn in Hrun;
      [| discriminate Hrun].
    now injection Hrun as <- _. }
  exists (fresh (dom h)). split; [exact Hres |].
  split; [apply not_elem_of_dom, is_fresh |].
  assert (Hcopy : h2 !! fresh (dom h) = Some o).
  { unfold h2. rewrite lookup_insert_ne.
    - unfold h1. apply lookup_insert_eq.
    - intros Heq. pose proof (is_fresh (dom h1)) as Hf. rewrite Heq in Hf.
      apply Hf. unfold h1. rewrite dom_insert. set_solver. }
  clear Hgrow.
  assert (Hh2 : forall items h3 r h4,
             add_hashes items h3 = (r, h4) -> heap_grows h3 h4).
  { intros items h3 r h4 H. pose proof (add_hashes_grows items h3) as G.
    now rewrite H in G. }
  unfold hget, hiterate, deref in Hrun. unfold_monad. cbn in Hrun.
  rewrite Hcopy in Hrun. cbn in Hrun.
  destruct o as [items|d]; cbn in Hrun; [discriminate Hrun |].
  assert (Hfinal : heap_grows h2 h').
  { destruct (match assoc "tools" d with
              | Some x => x
              | None => HRef (fresh (dom h1))
              end) as [| | |s|l']; cbn in Hrun; try discriminate Hrun.
    - destruct (add_hashes _ h2) as [[[]|e] h3] eqn:Hadd; cbn in Hrun;
        [| discriminate Hrun].
      injection Hrun as _ <-. eapply Hh2; eauto.
    - destruct (h2 !! l') as [[items|d']|]; cbn in Hrun;
        try discriminate Hrun;
        (destruct (add_hashes _ h2) as [[[]|e] h3] eqn:Hadd; cbn in Hrun;
           [| discriminate Hrun]);
        injection Hrun as _ <-; eapply Hh2; eauto. }
  specialize (Hfinal (fresh (dom h))). rewrite Hcopy in Hfinal.
  destruct Hfinal as (d' & Hd' & _). rewrite Hd'. eauto.
Qed.

Lemma add_content_hashes_returns_new_object_witness :
  exists l,
    fst (_add_content_hashes FixturesSigner.callers_document
           FixturesSigner.callers_heap) = Ret (HRef l) /\
    FixturesSigner.callers_heap !! l = None.
Proof.
  destruct (add_content_hashes_returns_new_object
              FixturesSigner.callers_document FixturesSigner.callers_heap
              (match fst (_add_content_hashes
                            FixturesSigner.callers_document
                            FixturesSigner.callers_heap) with
               | Ret v => v
               | Raise _ => HNone
               end)
              (snd (_add_content_hashes FixturesSigner.callers_document
                      FixturesSigner.callers_heap)))
    as (l & Hl & Hfree & _).
  - vm_compute. reflexivity.
  - exists l. split; [| exact Hfree].
    revert Hl. vm_compute. intros ->. reflexivity.
Defined.

(** ** Digests *)

(** X28: [compute_sha256] always returns a well-formed digest: 64
    characters, each a decimal digit or a letter from [a] to [f]. *)
Theorem compute_sha256_is_lowercase_hex (content : list byte) :
  well_formed_digest (compute_sha256 content) = true.
Proof. apply hexdigest_well_formed. Qed.

(** X29: a recorded digest that is not 64 lower-case hex digits can never
    be matched.  With such an expected digest [verify_content_integrity],
    and the check [Catalog.verify] makes for an entry, answer [False]
    whatever the network serves; so does the check of an entry whose
    [spec_hash] is not a string. *)
Theorem malformed_digest_never_matches
    (env : Env) (url expected : string) (t : trace) :
  well_formed_digest expected = false ->
  fst (verify_content_integrity env url expected t) = Ret false /\
  fst (_verify_content_integrity env (VStr url) (VStr expected) t)
    = Ret false /\
  (forall h, (forall s, h <> VStr s) ->
     fst (_verify_content_integrity env (VStr url) h t) = Ret false).
Proof.
  intros Hbad.
  assert (Hne : forall content,
             String.eqb (Sha256.hexdigest content) expected = false)
    by (intros content; now apply never_matches_malformed).
  unfold verify_content_integrity, _verify_content_integrity, http_get,
    compute_sha256, raise_for_status.
  unfold_monad. cbn.
  destruct (respond env (t ++ [SessionCreated]) (Request GET url None))
    as [r|e]; cbn; [| repeat split; reflexivity].
  destruct (400 <=? status r)%Z; cbn; [repeat split; reflexivity |].
  destruct (read r) as [content|e]; cbn; [| repeat split; reflexivity].
  rewrite Hne. rewrite String.eqb_sym, Hne.
  split; [reflexivity |]. split; [reflexivity |].
  intros h Hh. destruct h; try reflexivity. now destruct (Hh s).
Qed.

Lemma malformed_digest_never_matches_witness :
  well_formed_digest "any_hash" = false /\
  fst (verify_content_integrity FixturesTrust.unsigned_world
         FixturesTrust.spec_url "any_hash" []) = Ret false.
Proof.
  split; [reflexivity |].
  exact (proj1 (malformed_digest_never_matches FixturesTrust.unsigned_world
                  FixturesTrust.spec_url "any_hash" [] eq_refl)).
Defined.

(** ** [Catalog.tools] *)

Lemma map_outcome_ret {A B} (f : A -> outcome B) (xs : list A)
    (ys : list B) :
  map_outcome f xs = Ret ys -> Forall2 (fun x y => f x = Ret y) xs ys.
Proof.
  revert ys. induction xs as [|x xs IH]; intros ys; cbn.
  - intros H. apply Ret_inj in H. subst. constructor.
  - unfold mbind, outcome_bind.
    destruct (f x) as [y|e] eqn:Hx; [| discriminate].
    destruct (map_outcome f xs) as [zs|e]; [| discriminate].
    intros H. apply Ret_inj in H. subst ys. constructor; auto.
Qed.

(** X30: on a fetched catalog that has not been searched yet, the [tools]
    property returns one tool per entry of the document, in the order of
    the document: each tool keeps its entry as [spec] and has the id derived
    from it; and the list is then cached. *)
Theorem tools_has_one_tool_per_entry {U : Unicode}
    (c : Catalog) (t : trace) (items : list value) (results : list Tool)
    (c' : Catalog) (t' : trace) :
  _tools c = None ->
  SpecTrust.tools_of (_catalog_data c) = Ret items ->
  tools (c, t) = (Ret results, (c', t')) ->
  Forall2 (fun item tool =>
             spec tool = item /\
             exists d, item = VDict d /\ id tool = derived_id d)
          items results /\
  _tools c' = Some results.
Proof.
  intros Hnone Hitems Hrun. unfold tools in Hrun.
  destruct (truthy (_catalog_data c)) eqn:Hdata.
  2:{ rewrite find_not_fetched in Hrun by exact Hdata. discriminate Hrun. }
  rewrite find_cases in Hrun by exact Hdata.
  unfold built_tools, with_tools, SpecTrust.tools_of in *.
  rewrite Hnone in Hrun.
  unfold mbind, outcome_bind in *.
  destruct (get (_catalog_data c) "tools" (VList [])) as [specs|e];
    [| discriminate Hitems].
  rewrite Hitems in Hrun.
  destruct (map_outcome Tool_init items) as [built|e] eqn:Hmap;
    [| discriminate Hrun].
  cbn in Hrun. injection Hrun as <- <- <-.
  split; [| reflexivity].
  apply map_outcome_ret in Hmap.
  eapply Forall2_impl; [exact Hmap |].
  intros item tool Hinit. cbn in Hinit.
  destruct item as [| | | | |d]; try discriminate Hinit.
  split.
  - unfold Tool_init, mbind, outcome_bind, get in Hinit. cbn in Hinit.
    destruct (assoc "x-mcp-tool" d) as [[| | | | |x]|]; cbn in Hinit;
      try discriminate Hinit; apply Ret_inj in Hinit; now subst tool.
  - exists d. split; [reflexivity | now apply Tool_init_id].
Qed.

Lemma tools_has_one_tool_per_entry_witness :
  Forall2 (fun item tool =>
             spec tool = item /\
             exists d, item = VDict d /\ id tool = derived_id d)
          [FixturesFind.tool_a_spec; FixturesFind.tool_b_spec]
          [FixturesFind.tool_a; FixturesFind.tool_b] /\
  _tools FixturesFind.searched =
    Some [FixturesFind.tool_a; FixturesFind.tool_b].
Proof.
  exact (tools_has_one_tool_per_entry (U := Fixtures.ascii_text)
           FixturesFind.fetched []
           [FixturesFind.tool_a_spec; FixturesFind.tool_b_spec]
           [FixturesFind.tool_a; FixturesFind.tool_b]
           FixturesFind.searched [] eq_refl eq_refl eq_refl).
Defined.

(** ** The tools of the examples are the ones the constructor builds *)

Example fixture_tools_are_built_by_init :
  Tool_init FixturesFind.tool_a_spec = Ret FixturesFind.tool_a /\
  Tool_init FixturesFind.tool_b_spec = Ret FixturesFind.tool_b /\
  Tool_init (VDict [("description", VNone)]) =
    Ret FixturesFind.null_description_tool.
Proof. repeat split; reflexivity. Qed.
